(** * zlog: the leveled, daily-rotating logger core of zinx

    A shallow embedding of [zlogger.go] (package [zlog]) and the properties
    of its header formatter, level gate, emit operation and file rotator.

    Conventions of the embedding:
    - a Go [string] or [[]byte] is a [list ascii] (a byte sequence); string
      literals are read through the coercion [list_ascii_of_string];
    - a Go [int] is a [Z]; the one place where the source converts to
      [uint] ([itoa]) writes the 64-bit wrap-around out;
    - a run-time panic of the Go program (index out of range) is [None];
    - the operating system (clock, file system, descriptors, standard
      error) is an explicit [World] threaded through every operation, with
      the system calls recorded in program order in [w_trace];
    - the two mutexes are not modelled: every operation runs alone. *)

From Stdlib Require Import ZArith Ascii String.
From stdpp Require Import base option list strings gmap.

Local Open Scope Z_scope.

Coercion list_ascii_of_string : string >-> list.

Abbreviation bytes := (list ascii).

(** ** Constants of the package *)

Definition BitDate : Z := 1.
Definition BitTime : Z := 2.
Definition BitMicroSeconds : Z := 4.
Definition BitLongFile : Z := 8.
Definition BitShortFile : Z := 16.
Definition BitLevel : Z := 32.
Definition BitStdFlag : Z := Z.lor BitDate BitTime.
Definition BitDefault : Z := Z.lor (Z.lor BitLevel BitShortFile) BitStdFlag.

Definition LogDebug : Z := 0.
Definition LogInfo : Z := 1.
Definition LogWarn : Z := 2.
Definition LogError : Z := 3.
Definition LogPanic : Z := 4.
Definition LogFatal : Z := 5.

Definition levels : list bytes :=
  [ "[DEBUG]" : bytes; "[INFO]" : bytes; "[WARN]" : bytes;
    "[ERROR]" : bytes; "[PANIC]" : bytes; "[FATAL]" : bytes ].

(** ** Go values used by the logger *)

(** The [error] values the logger can meet; [None : option Err] is [nil]. *)
Inductive Err :=
| ErrInvalid      (* os.ErrInvalid: method called on a nil *os.File *)
| ErrClosed       (* os.ErrClosed: descriptor already closed *)
| ErrPermission   (* permission denied *)
| ErrNotExist     (* no such file or directory *)
| ErrNoSpace.     (* write refused: no space left on device *)

Abbreviation error := (option Err).

(** An [io.Writer] as the logger holds it in [out]. [WFile None] is the
    interface value wrapping a nil [*os.File], whose [Write] returns
    [os.ErrInvalid]. *)
Inductive Writer :=
| WStderr
| WFile (f : option nat)
| WOther (id : nat).

(** What [time.Time] exposes to the logger. *)
Record Time := mkTime {
  tYear : Z; tMonth : Z; tDay : Z;
  tHour : Z; tMinute : Z; tSecond : Z;
  tNanosecond : Z;
  tYearDay : Z
}.

Record ZinxLoggerCore := mkLog {
  prefix : bytes;
  flag : Z;
  out : Writer;
  buf : bytes;
  file : option nat;
  isolationLevel : Z;
  calldDepth : Z;
  fileName : bytes;
  fileDir : bytes;
  lastWriteDate : Z
}.

Definition set_prefix (p : bytes) (l : ZinxLoggerCore) : ZinxLoggerCore :=
  mkLog p (flag l) (out l) (buf l) (file l) (isolationLevel l)
        (calldDepth l) (fileName l) (fileDir l) (lastWriteDate l).
Definition set_flag (f : Z) (l : ZinxLoggerCore) : ZinxLoggerCore :=
  mkLog (prefix l) f (out l) (buf l) (file l) (isolationLevel l)
        (calldDepth l) (fileName l) (fileDir l) (lastWriteDate l).
Definition set_out (o : Writer) (l : ZinxLoggerCore) : ZinxLoggerCore :=
  mkLog (prefix l) (flag l) o (buf l) (file l) (isolationLevel l)
        (calldDepth l) (fileName l) (fileDir l) (lastWriteDate l).
Definition set_buf (b : bytes) (l : ZinxLoggerCore) : ZinxLoggerCore :=
  mkLog (prefix l) (flag l) (out l) b (file l) (isolationLevel l)
        (calldDepth l) (fileName l) (fileDir l) (lastWriteDate l).
Definition set_file (f : option nat) (l : ZinxLoggerCore) : ZinxLoggerCore :=
  mkLog (prefix l) (flag l) (out l) (buf l) f (isolationLevel l)
        (calldDepth l) (fileName l) (fileDir l) (lastWriteDate l).
Definition set_isolationLevel (v : Z) (l : ZinxLoggerCore) : ZinxLoggerCore :=
  mkLog (prefix l) (flag l) (out l) (buf l) (file l) v
        (calldDepth l) (fileName l) (fileDir l) (lastWriteDate l).
Definition set_target (d n : bytes) (l : ZinxLoggerCore) : ZinxLoggerCore :=
  mkLog (prefix l) (flag l) (out l) (buf l) (file l) (isolationLevel l)
        (calldDepth l) n d (lastWriteDate l).
Definition set_lastWriteDate (d : Z) (l : ZinxLoggerCore) : ZinxLoggerCore :=
  mkLog (prefix l) (flag l) (out l) (buf l) (file l) (isolationLevel l)
        (calldDepth l) (fileName l) (fileDir l) d.

(** [NewZinxLog]: isolation level 0 (everything is emitted), call depth 2,
    no bound file. The finalizer is not modelled. *)
Definition NewZinxLog (o : Writer) (p : bytes) (f : Z) : ZinxLoggerCore :=
  mkLog p f o [] None 0 2 [] [] 0.

(** ** [itoa]: fixed-width decimal rendering *)

(** [uint(i)] on a 64-bit platform. *)
Definition uint (i : Z) : Z := i mod 2 ^ 64.

(** A Go [int] after an arithmetic step (two's complement, 64 bits). *)
Definition wrap_int (z : Z) : Z := (z + 2 ^ 63) mod 2 ^ 64 - 2 ^ 63.

(** [byte(d) + '0'] *)
Definition digit (d : Z) : ascii := ascii_of_nat (48 + Z.to_nat d).

(** The loop [for ; u > 0 || wID > 0; u /= 10 { bp--; wID--; b[bp] = ... }]
    over the array [b] of 32 bytes. [bp] is the index of the last byte
    written; decrementing it at 0 makes the store [b[-1]] panic. *)
Fixpoint itoa_loop (bp : nat) (u wID : Z) (b : bytes) : option (nat * bytes) :=
  if (0 <? u) || (0 <? wID) then
    match bp with
    | O => None
    | S bp' =>
        itoa_loop bp' (u / 10) (wrap_int (wID - 1)) (<[bp' := digit (u mod 10)]> b)
    end
  else Some (bp, b).

(** [itoa(buf, i, wID)]: the bytes [b[bp:]] are written to the buffer. *)
Definition itoa (buffer : bytes) (i wID : Z) : option bytes :=
  let u := uint i in
  if (u =? 0) && (wID <=? 1) then Some (buffer ++ ["0"%char])
  else
    '(bp, b) ← itoa_loop 32 u wID (replicate 32 "000"%char);
    Some (buffer ++ drop bp b).

(** ** [formatHeader] *)

(** The scan [for i := len(file) - 1; i > 0; i-- { if file[i] == '/' ... }]
    of the short-file branch: [i] is the current index, the loop ends
    without looking at index 0. *)
Fixpoint short_scan (path : bytes) (i : nat) : bytes :=
  match i with
  | O => path
  | S i' =>
      if decide (path !! i = Some "/"%char) then drop (i + 1) path
      else short_scan path i'
  end.

Definition shortFile (path : bytes) : bytes :=
  short_scan path (length path - 1).

Definition has (f mask : Z) : bool := negb (Z.land f mask =? 0).

(** [levels[level]]: out of range is a run-time panic. *)
Definition level_tag (level : Z) : option bytes :=
  if level <? 0 then None else levels !! Z.to_nat level.

Definition header_date (t : Time) (b : bytes) : option bytes :=
  b ← itoa b (tYear t) 4;
  b ← itoa (b ++ ["/"%char]) (tMonth t) 2;
  b ← itoa (b ++ ["/"%char]) (tDay t) 2;
  Some (b ++ [" "%char]).

Definition header_clock (f : Z) (t : Time) (b : bytes) : option bytes :=
  b ← itoa b (tHour t) 2;
  b ← itoa (b ++ [":"%char]) (tMinute t) 2;
  b ← itoa (b ++ [":"%char]) (tSecond t) 2;
  b ← (if has f BitMicroSeconds
       then itoa (b ++ ["."%char]) (tNanosecond t / 1000) 6
       else Some b);
  Some (b ++ [" "%char]).

Definition header_file (f : Z) (path : bytes) (line : Z) (b : bytes) : option bytes :=
  let path := if has f BitShortFile then shortFile path else path in
  b ← itoa (b ++ path ++ [":"%char]) line (-1);
  Some (b ++ (": " : bytes)).

Definition formatHeader (log : ZinxLoggerCore) (t : Time) (path : bytes)
    (line level : Z) : option ZinxLoggerCore :=
  let b := buf log in
  let b := if decide (prefix log = []) then b
           else b ++ ["<"%char] ++ prefix log ++ [">"%char] in
  b ← (if has (flag log) (Z.lor (Z.lor BitDate BitTime) BitMicroSeconds) then
         b ← (if has (flag log) BitDate then header_date t b else Some b);
         b ← (if has (flag log) (Z.lor BitTime BitMicroSeconds)
              then header_clock (flag log) t b else Some b);
         b ← (if has (flag log) BitLevel
              then tag ← level_tag level; Some (b ++ tag) else Some b);
         (if has (flag log) (Z.lor BitShortFile BitLongFile)
          then header_file (flag log) path line b else Some b)
       else Some b);
  Some (set_buf b log).


(** ** The operating system *)

Inductive Syscall :=
| SysStat (path : bytes)
| SysMkdirAll (path : bytes)
| SysOpen (path : bytes) (create : bool) (res : option nat)
| SysClose (fd : nat)
| SysWrite (o : Writer) (data : bytes) (res : error).

Record World := mkWorld {
  w_clock : nat -> Time;       (* the successive readings of time.Now() *)
  w_reads : nat;               (* how many readings were taken *)
  w_dirs : gset bytes;         (* existing directories *)
  w_files : gmap bytes bytes;  (* regular files and their content *)
  w_denied : gset bytes;       (* paths that may be neither created nor opened *)
  w_full : bool;               (* the device accepts no more data *)
  w_open : gmap nat bytes;     (* open descriptors and the file they append to *)
  w_next : nat;                (* next free descriptor *)
  w_stderr : bytes;            (* what was written to standard error *)
  w_trace : list Syscall       (* system calls, in program order *)
}.

Definition tick (w : World) : World :=
  mkWorld (w_clock w) (S (w_reads w)) (w_dirs w) (w_files w) (w_denied w)
          (w_full w) (w_open w) (w_next w) (w_stderr w) (w_trace w).
Definition log_call (c : Syscall) (w : World) : World :=
  mkWorld (w_clock w) (w_reads w) (w_dirs w) (w_files w) (w_denied w)
          (w_full w) (w_open w) (w_next w) (w_stderr w) (w_trace w ++ [c]).
Definition set_dirs (d : gset bytes) (w : World) : World :=
  mkWorld (w_clock w) (w_reads w) d (w_files w) (w_denied w)
          (w_full w) (w_open w) (w_next w) (w_stderr w) (w_trace w).
Definition set_files (f : gmap bytes bytes) (w : World) : World :=
  mkWorld (w_clock w) (w_reads w) (w_dirs w) f (w_denied w)
          (w_full w) (w_open w) (w_next w) (w_stderr w) (w_trace w).
Definition set_open (o : gmap nat bytes) (n : nat) (w : World) : World :=
  mkWorld (w_clock w) (w_reads w) (w_dirs w) (w_files w) (w_denied w)
          (w_full w) o n (w_stderr w) (w_trace w).
Definition set_stderr (e : bytes) (w : World) : World :=
  mkWorld (w_clock w) (w_reads w) (w_dirs w) (w_files w) (w_denied w)
          (w_full w) (w_open w) (w_next w) e (w_trace w).

(** [time.Now()] *)
Definition Now (w : World) : Time * World := (w_clock w (w_reads w), tick w).

(** [time.Time.Format("20060102")]: year, month and day, zero-padded. *)
Definition format_20060102 (t : Time) : bytes :=
  default [] (b ← itoa [] (tYear t) 4; b ← itoa b (tMonth t) 2; itoa b (tDay t) 2).

(** [os.Stat], of which the logger only looks at the error. *)
Definition os_Stat (path : bytes) (w : World) : error * World :=
  let res := if decide (path ∈ w_dirs w) then None
             else if decide (is_Some (w_files w !! path)) then None
             else Some ErrNotExist in
  (res, log_call (SysStat path) w).

Definition os_IsNotExist (e : error) : bool :=
  match e with Some ErrNotExist => true | _ => false end.
Definition os_IsPermission (e : error) : bool :=
  match e with Some ErrPermission => true | _ => false end.
(** [os.IsExist]: no call of the logger can fail with "already exists". *)
Definition os_IsExist (e : error) : bool := false.

(** [os.MkdirAll(dir, 0775)] *)
Definition os_MkdirAll (dir : bytes) (w : World) : error * World :=
  let w := log_call (SysMkdirAll dir) w in
  if decide (dir ∈ w_dirs w) then (None, w)
  else if decide (dir = []) then (Some ErrNotExist, w)
  else if decide (dir ∈ w_denied w) then (Some ErrPermission, w)
  else (None, set_dirs ({[dir]} ∪ w_dirs w) w).

(** The directory part of a path: everything before its last ['/'];
    [None] when the path has no separator. *)
Fixpoint dirname (p : bytes) : option bytes :=
  match p with
  | [] => None
  | c :: p' =>
      match dirname p' with
      | Some d => Some (c :: d)
      | None => if decide (c = "/"%char) then Some [] else None
      end
  end.

Definition parent_exists (path : bytes) (w : World) : bool :=
  match dirname path with
  | None | Some [] => true
  | Some d => bool_decide (d ∈ w_dirs w)
  end.

(** [os.OpenFile(path, O_APPEND|O_RDWR[|O_CREATE], 0644)]: the descriptor,
    or [None] for the nil [*os.File] returned together with an error. *)
Definition os_OpenFile (path : bytes) (create : bool) (w : World)
    : option nat * error * World :=
  let fail e := (None, Some e, log_call (SysOpen path create None) w) in
  let succeed w :=
    let fd := w_next w in
    (Some fd, None,
     log_call (SysOpen path create (Some fd))
              (set_open (<[fd := path]> (w_open w)) (S fd) w)) in
  if decide (path ∈ w_denied w) then fail ErrPermission
  else if decide (is_Some (w_files w !! path)) then succeed w
  else if negb create then fail ErrNotExist
  else if parent_exists path w then succeed (set_files (<[path := []]> (w_files w)) w)
  else fail ErrNotExist.

(** [Close] on an [os.File] *)
Definition os_Close (fd : nat) (w : World) : error * World :=
  let w := log_call (SysClose fd) w in
  match w_open w !! fd with
  | None => (Some ErrClosed, w)
  | Some _ => (None, set_open (delete fd (w_open w)) (w_next w) w)
  end.

(** [io.Writer.Write] on the value held in [out]. *)
Definition Write (o : Writer) (data : bytes) (w : World) : error * World :=
  let done res w := (res, log_call (SysWrite o data res) w) in
  match o with
  | WStderr => done None (set_stderr (w_stderr w ++ data) w)
  | WOther _ => done None w
  | WFile None => done (Some ErrInvalid) w
  | WFile (Some fd) =>
      match w_open w !! fd with
      | None => done (Some ErrClosed) w
      | Some path =>
          if w_full w then done (Some ErrNoSpace) w
          else done None
                 (set_files (<[path := default [] (w_files w !! path) ++ data]> (w_files w)) w)
      end
  end.

(** ** The file rotator *)

Definition checkFileExist (filename : bytes) (w : World) : bool * World :=
  let '(err, w) := os_Stat filename w in
  (negb (os_IsNotExist err), w).

Definition mkdirLog (dir : bytes) (w : World) : error * World :=
  let '(er, w) := os_Stat dir w in
  let b := bool_decide (er = None) || os_IsExist er in
  if b then (None, w)
  else
    let '(err, w) := os_MkdirAll dir w in
    ((if os_IsPermission err then err else None), w).

Definition closeFile (log : ZinxLoggerCore) (w : World) : ZinxLoggerCore * World :=
  match file log with
  | Some fd =>
      let '(_, w) := os_Close fd w in
      (set_out WStderr (set_file None log), w)
  | None => (log, w)
  end.

(** The condition of the fast path, tested again under [fsLock]. *)
Definition is_current (log : ZinxLoggerCore) (yearDay : Z) : bool :=
  bool_decide (lastWriteDate log = yearDay) && bool_decide (file log <> None).

(** The slow path of [updateOutputFile], from [log.lastWriteDate = yearDay]
    to the end. *)
Definition rotate (yearDay : Z) (log : ZinxLoggerCore) (w : World)
    : ZinxLoggerCore * World :=
  let log := set_lastWriteDate yearDay log in
  let '(_, w) := mkdirLog (fileDir log) w in
  let '(t, w) := Now w in
  let newDailyFile :=
    fileDir log ++ ("/" : bytes) ++ fileName log ++ ("." : bytes) ++ format_20060102 t in
  let '(exists_, w) := checkFileExist newDailyFile w in
  let '(f, _, w) := os_OpenFile newDailyFile (negb exists_) w in
  let '(log, w) :=
    match file log with
    | Some _ => closeFile log w
    | None => (log, w)
    end in
  (set_out (WFile f) (set_file f log), w).

Definition updateOutputFile (log : ZinxLoggerCore) (w : World)
    : ZinxLoggerCore * World :=
  let '(t, w) := Now w in
  let yearDay := tYearDay t in
  if is_current log yearDay then (log, w)
  else if is_current log yearDay then (log, w)
  else rotate yearDay log w.

(** ** [OutPut]: the emit operation *)

Definition newline : ascii := "010"%char.

(** [len(s) > 0 && s[len(s)-1] != '\n'] *)
Definition needs_newline (s : bytes) : bool :=
  bool_decide (0 < length s)%nat
  && negb (bool_decide (s !! (length s - 1)%nat = Some newline)).

(** The caller lookup of [OutPut], made only when a file bit is set:
    [caller] is what [runtime.Caller(log.calldDepth)] answers, the file and
    line of the frame, or [None] when [ok] is false. Without a file bit,
    [file] and [line] keep their zero values. *)
Definition located (log : ZinxLoggerCore) (caller : option (bytes * Z)) : bytes * Z :=
  if has (flag log) (Z.lor BitShortFile BitLongFile) then
    match caller with
    | Some fl => fl
    | None => (("unknown-file" : bytes), 0)
    end
  else ([], 0).

Definition OutPut (level : Z) (s : bytes) (caller : option (bytes * Z))
    (log : ZinxLoggerCore) (w : World) : option (error * ZinxLoggerCore * World) :=
  let '(now, w) := Now w in
  let '(path, line) := located log caller in
  log ← formatHeader (set_buf [] log) now path line level;
  let log := set_buf (buf log ++ s) log in
  let log := if needs_newline s then set_buf (buf log ++ [newline]) log else log in
  let '(log, w) := updateOutputFile log w in
  let '(err, w) := Write (out log) (buf log) w in
  Some (err, log, w).

(** ** The level gate and the severity API *)

Definition verifyLogIsolation (log : ZinxLoggerCore) (logLevel : Z) : bool :=
  if isolationLevel log >? logLevel then true else false.

Definition SetLogLevel (logLevel : Z) (log : ZinxLoggerCore) : ZinxLoggerCore :=
  set_isolationLevel logLevel log.

Definition SetLogFile (dir name : bytes) (log : ZinxLoggerCore) : ZinxLoggerCore :=
  set_target dir name log.

(** How a call of the API ends: it returns to its caller, the process exits
    ([os.Exit]), or the goroutine panics with a value ([panic(s)]). *)
Inductive Outcome :=
| Returned
| Exited (code : Z)
| Panicked (v : bytes).

Abbreviation Result := (option (Outcome * ZinxLoggerCore * World)).

(** [fmt.Sprintln(v...)]: the operands (given here by their default
    rendering) separated by single spaces, then a newline. *)
Definition Sprintln (v : list bytes) : bytes :=
  match v with
  | [] => [newline]
  | x :: r => x ++ concat (map (fun y => " "%char :: y) r) ++ [newline]
  end.

(** The methods ending in [f] take [s], the value of
    [fmt.Sprintf(format, v...)]; the others take the operands [v]. *)

Definition Debugf (s : bytes) caller (log : ZinxLoggerCore) (w : World) : Result :=
  if verifyLogIsolation log LogDebug then Some (Returned, log, w)
  else '(_, log, w) ← OutPut LogDebug s caller log w; Some (Returned, log, w).

Definition Debug (v : list bytes) caller (log : ZinxLoggerCore) (w : World) : Result :=
  if verifyLogIsolation log LogDebug then Some (Returned, log, w)
  else '(_, log, w) ← OutPut LogDebug (Sprintln v) caller log w; Some (Returned, log, w).

Definition Infof (s : bytes) caller (log : ZinxLoggerCore) (w : World) : Result :=
  if verifyLogIsolation log LogInfo then Some (Returned, log, w)
  else '(_, log, w) ← OutPut LogInfo s caller log w; Some (Returned, log, w).

Definition Info (v : list bytes) caller (log : ZinxLoggerCore) (w : World) : Result :=
  if verifyLogIsolation log LogInfo then Some (Returned, log, w)
  else '(_, log, w) ← OutPut LogInfo (Sprintln v) caller log w; Some (Returned, log, w).

Definition Warnf (s : bytes) caller (log : ZinxLoggerCore) (w : World) : Result :=
  if verifyLogIsolation log LogWarn then Some (Returned, log, w)
  else '(_, log, w) ← OutPut LogWarn s caller log w; Some (Returned, log, w).

Definition Warn (v : list bytes) caller (log : ZinxLoggerCore) (w : World) : Result :=
  if verifyLogIsolation log LogWarn then Some (Returned, log, w)
  else '(_, log, w) ← OutPut LogWarn (Sprintln v) caller log w; Some (Returned, log, w).

Definition Errorf (s : bytes) caller (log : ZinxLoggerCore) (w : World) : Result :=
  if verifyLogIsolation log LogError then Some (Returned, log, w)
  else '(_, log, w) ← OutPut LogError s caller log w; Some (Returned, log, w).

Definition Error (v : list bytes) caller (log : ZinxLoggerCore) (w : World) : Result :=
  if verifyLogIsolation log LogError then Some (Returned, log, w)
  else '(_, log, w) ← OutPut LogError (Sprintln v) caller log w; Some (Returned, log, w).

Definition Fatalf (s : bytes) caller (log : ZinxLoggerCore) (w : World) : Result :=
  if verifyLogIsolation log LogFatal then Some (Returned, log, w)
  else '(_, log, w) ← OutPut LogFatal s caller log w; Some (Exited 1, log, w).

Definition Fatal (v : list bytes) caller (log : ZinxLoggerCore) (w : World) : Result :=
  if verifyLogIsolation log LogFatal then Some (Returned, log, w)
  else '(_, log, w) ← OutPut LogFatal (Sprintln v) caller log w; Some (Exited 1, log, w).

Definition Panicf (s : bytes) caller (log : ZinxLoggerCore) (w : World) : Result :=
  if verifyLogIsolation log LogPanic then Some (Returned, log, w)
  else '(_, log, w) ← OutPut LogPanic s caller log w; Some (Panicked s, log, w).

Definition Panic (v : list bytes) caller (log : ZinxLoggerCore) (w : World) : Result :=
  if verifyLogIsolation log LogPanic then Some (Returned, log, w)
  else
    let s := Sprintln v in
    '(_, log, w) ← OutPut LogPanic s caller log w; Some (Panicked s, log, w).

(** [Stack]: [s] is the value of [fmt.Sprint(v...)] and [dump] the bytes
    [runtime.Stack] put in its buffer of [LOG_MAX_BUF] bytes. *)
Definition LOG_MAX_BUF : Z := 1024 * 1024.

Definition Stack (s dump : bytes) caller (log : ZinxLoggerCore) (w : World) : Result :=
  let s := s ++ [newline] in
  let s := s ++ dump in
  let s := s ++ [newline] in
  '(_, log, w) ← OutPut LogError s caller log w; Some (Returned, log, w).

(** A call of one of the public entry points with its arguments. *)
Inductive Call :=
| CDebugf (s : bytes) | CDebug (v : list bytes)
| CInfof (s : bytes)  | CInfo (v : list bytes)
| CWarnf (s : bytes)  | CWarn (v : list bytes)
| CErrorf (s : bytes) | CError (v : list bytes)
| CPanicf (s : bytes) | CPanic (v : list bytes)
| CFatalf (s : bytes) | CFatal (v : list bytes)
| CStack (s dump : bytes).

Definition run (c : Call) caller (log : ZinxLoggerCore) (w : World) : Result :=
  match c with
  | CDebugf s => Debugf s caller log w | CDebug v => Debug v caller log w
  | CInfof s => Infof s caller log w   | CInfo v => Info v caller log w
  | CWarnf s => Warnf s caller log w   | CWarn v => Warn v caller log w
  | CErrorf s => Errorf s caller log w | CError v => Error v caller log w
  | CPanicf s => Panicf s caller log w | CPanic v => Panic v caller log w
  | CFatalf s => Fatalf s caller log w | CFatal v => Fatal v caller log w
  | CStack s d => Stack s d caller log w
  end.

(** ** Configuration methods and clean-up *)

(** [Flags], [ResetFlags], [AddFlag] and [SetPrefix]; the mutex they take
    is not modelled. *)
Definition Flags (log : ZinxLoggerCore) : Z := flag log.

Definition ResetFlags (f : Z) (log : ZinxLoggerCore) : ZinxLoggerCore :=
  set_flag f log.

Definition AddFlag (f : Z) (log : ZinxLoggerCore) : ZinxLoggerCore :=
  set_flag (Z.lor (flag log) f) log.

Definition SetPrefix (p : bytes) (log : ZinxLoggerCore) : ZinxLoggerCore :=
  set_prefix p log.

(** [CleanZinxLog], the finalizer set by [NewZinxLog]. *)
Definition CleanZinxLog (log : ZinxLoggerCore) (w : World) : ZinxLoggerCore * World :=
  closeFile log w.

(** ** Sample worlds and loggers used by the examples *)

Definition noon : Time := mkTime 2019 4 11 11 15 33 123123000 101.
Definition next_noon : Time := mkTime 2019 4 12 11 15 33 123123000 102.

Definition world0 : World :=
  mkWorld (fun _ => noon) 0 ∅ ∅ ∅ false ∅ 3 [] [].

(** The same machine, one day later. *)
Definition tomorrow (w : World) : World :=
  mkWorld (fun _ => next_noon) (w_reads w) (w_dirs w) (w_files w) (w_denied w)
          (w_full w) (w_open w) (w_next w) (w_stderr w) (w_trace w).

(** The same machine after the log directory became unwritable for the
    next day's file. *)
Definition deny (p : bytes) (w : World) : World :=
  mkWorld (w_clock w) (w_reads w) (w_dirs w) (w_files w) ({[p]} ∪ w_denied w)
          (w_full w) (w_open w) (w_next w) (w_stderr w) (w_trace w).

Definition srv_log : ZinxLoggerCore :=
  SetLogFile ("/var/log/zinx" : bytes) ("srv.log" : bytes)
    (NewZinxLog WStderr ("SRV" : bytes) BitDefault).

Definition here : option (bytes * Z) := Some (("/home/go/src/zinx/server.go" : bytes), 42).

(** A device with no space left. *)
Definition fill (w : World) : World :=
  mkWorld (w_clock w) (w_reads w) (w_dirs w) (w_files w) (w_denied w)
          true (w_open w) (w_next w) (w_stderr w) (w_trace w).

Definition today_file : bytes := "/var/log/zinx/srv.log.20190411".
Definition tomorrow_file : bytes := "/var/log/zinx/srv.log.20190412".

(** A first line is logged today; the next day the new file cannot be
    created and a second line is logged; then a third. *)
Definition first_emit : option (error * ZinxLoggerCore * World) :=
  OutPut LogInfo ("up" : bytes) here srv_log world0.

Definition second_emit : option (error * ZinxLoggerCore * World) :=
  '(_, log, w) ← first_emit;
  OutPut LogError ("boom" : bytes) here log (deny tomorrow_file (tomorrow w)).

Definition third_emit : option (error * ZinxLoggerCore * World) :=
  '(_, log, w) ← second_emit;
  OutPut LogError ("again" : bytes) here log w.

(** A logger bound, on an earlier day, to descriptor 3, and a machine on
    which that descriptor is open. *)
Definition bound_log : ZinxLoggerCore :=
  set_lastWriteDate 100 (set_out (WFile (Some 3%nat)) (set_file (Some 3%nat) srv_log)).

Definition bound_world : World :=
  mkWorld (fun _ => noon) 0 ∅ ∅ ∅ false
          {[3%nat := ("/var/log/zinx/srv.log.20190410" : bytes)]} 4 [] [].

(** ** Vocabulary of the statements *)

(** The path separator the short-file scan looks for. *)
Definition slash : ascii := "/"%char.

(** A decimal digit, and the number a digit string denotes. *)
Definition is_digit (c : ascii) : Prop := (48 <= nat_of_ascii c <= 57)%nat.
Definition digit_value (c : ascii) : Z := Z.of_nat (nat_of_ascii c) - 48.
Definition dec_value (s : bytes) : Z :=
  fold_left (fun acc c => 10 * acc + digit_value c) s 0.

(** What [itoa] appends for [i] at width [w]. *)
Definition digits (i w : Z) : bytes := default [] (itoa [] i w).

(** The fields of the header, in the order the formatter appends them. *)
Definition prefix_field (log : ZinxLoggerCore) : bytes :=
  if decide (prefix log = []) then [] else ["<"%char] ++ prefix log ++ [">"%char].

Definition date_field (f : Z) (t : Time) : bytes :=
  if has f BitDate then
    digits (tYear t) 4 ++ ["/"%char] ++ digits (tMonth t) 2 ++ ["/"%char]
      ++ digits (tDay t) 2 ++ [" "%char]
  else [].

Definition clock_field (f : Z) (t : Time) : bytes :=
  if has f (Z.lor BitTime BitMicroSeconds) then
    digits (tHour t) 2 ++ [":"%char] ++ digits (tMinute t) 2 ++ [":"%char]
      ++ digits (tSecond t) 2
      ++ (if has f BitMicroSeconds
          then ["."%char] ++ digits (tNanosecond t / 1000) 6 else [])
      ++ [" "%char]
  else [].

Definition file_field (f : Z) (path : bytes) (line : Z) : bytes :=
  if has f (Z.lor BitShortFile BitLongFile) then
    (if has f BitShortFile then shortFile path else path)
      ++ [":"%char] ++ digits line (-1) ++ (": " : bytes)
  else [].

(** The severity a call is made at, whether it goes through the level
    gate, the message it hands to [OutPut], and how it ends once the
    message was emitted. *)
Definition severity (c : Call) : Z :=
  match c with
  | CDebugf _ | CDebug _ => LogDebug
  | CInfof _ | CInfo _ => LogInfo
  | CWarnf _ | CWarn _ => LogWarn
  | CErrorf _ | CError _ | CStack _ _ => LogError
  | CPanicf _ | CPanic _ => LogPanic
  | CFatalf _ | CFatal _ => LogFatal
  end.

Definition gated (c : Call) : bool :=
  match c with CStack _ _ => false | _ => true end.

Definition message (c : Call) : bytes :=
  match c with
  | CDebugf s | CInfof s | CWarnf s | CErrorf s | CPanicf s | CFatalf s => s
  | CDebug v | CInfo v | CWarn v | CError v | CPanic v | CFatal v => Sprintln v
  | CStack s dump => ((s ++ [newline]) ++ dump) ++ [newline]
  end.

Definition ending (c : Call) : Outcome :=
  match c with
  | CFatalf _ | CFatal _ => Exited 1
  | CPanicf _ | CPanic _ => Panicked (message c)
  | _ => Returned
  end.

(** The bytes one call of [OutPut] hands to the sink when the message gets
    its terminator as the specification words it: appended unless the
    message already ends in one. *)
Definition terminated (s : bytes) : bytes :=
  if decide (last s = Some newline) then s else s ++ [newline].

(** What the examples look at after an emit: the returned error, the
    sink and the bound file, the day of the last rotation, the buffer, the
    last system call and what standard error received. *)
Definition observe (r : option (error * ZinxLoggerCore * World))
    : option (error * Writer * option nat * Z * bytes * option Syscall * bytes) :=
  '(err, log, w) ← r;
  Some (err, out log, file log, lastWriteDate log, buf log,
        last (w_trace w), w_stderr w).

(** How a call ended and the last system call it made. *)
Definition observe_call (r : Result) : option (Outcome * option Syscall) :=
  '(o, _, w) ← r; Some (o, last (w_trace w)).

(** A call is suppressed: it returns at once, the logger (its buffer
    included) and the world (its trace included) are as they were. *)
Definition suppressed (c : Call) caller (log : ZinxLoggerCore) (w : World) : Prop :=
  run c caller log w = Some (Returned, log, w).

(** A severity passes the gate of a logger set to isolation level [L]. *)
Definition passes (L s : Z) : Prop :=
  forall log, verifyLogIsolation (SetLogLevel L log) s = false.

(** [w'] is [w] after some more system calls. *)
Definition grows (w w' : World) : Prop :=
  exists calls, w_trace w' = w_trace w ++ calls.

(** What [OutPut] puts in the buffer: the header, the message, and the
    line terminator the source decides on. *)
Definition line_of (hdr s : bytes) : bytes :=
  hdr ++ s ++ (if needs_newline s then [newline] else []).

(** The three bits that open the stamp block of the header. *)
Definition time_bits : Z := Z.lor (Z.lor BitDate BitTime) BitMicroSeconds.

(** A calendar time as [time.Now()] returns it, with a four-digit year. *)
Definition valid_time (t : Time) : Prop :=
  0 <= tYear t <= 9999 /\ 1 <= tMonth t <= 12 /\ 1 <= tDay t <= 31
  /\ 0 <= tHour t <= 23 /\ 0 <= tMinute t <= 59 /\ 0 <= tSecond t <= 59
  /\ 0 <= tNanosecond t <= 999999999.

(** Descriptors are handed out in increasing order: every open one is
    below the next free one. *)
Definition fds_fresh (w : World) : Prop :=
  forall fd p, w_open w !! fd = Some p -> (fd < w_next w)%nat.

(** The file the logger holds is open and is its sink. *)
Definition bound_open (log : ZinxLoggerCore) (w : World) : Prop :=
  forall fd, file log = Some fd ->
             is_Some (w_open w !! fd) /\ out log = WFile (Some fd).

Definition sink_ok (log : ZinxLoggerCore) (w : World) : Prop :=
  fds_fresh w /\ bound_open log w.

(** What no operation of the logger changes: the clock and the state of
    the device. *)
Definition ambient (w : World) : (nat -> Time) * bool := (w_clock w, w_full w).

(** The part of the world the rotator's look-ups leave alone: files,
    descriptors, standard error and the state of the device. *)
Definition store (w : World)
    : gmap bytes bytes * gmap nat bytes * nat * bytes * bool :=
  (w_files w, w_open w, w_next w, w_stderr w, w_full w).

(** The descriptor table after the previous file of the logger was closed. *)
Definition without (old : option nat) (o : gmap nat bytes) : gmap nat bytes :=
  match old with
  | Some fd => delete fd o
  | None => o
  end.

(** The system call that closes the previous file, if there is one. *)
Definition close_call (old : option nat) : list Syscall :=
  match old with
  | Some fd => [SysClose fd]
  | None => []
  end.

(** The path of the daily file the slow path of the rotator opens; the
    date is read from the clock after the day of the year was. *)
Definition daily_file (log : ZinxLoggerCore) (w : World) : bytes :=
  fileDir log ++ ("/" : bytes) ++ fileName log ++ ("." : bytes)
    ++ format_20060102 (w_clock w (S (w_reads w))).

(** The configuration of a logger: everything but buffer, sink, bound
    file and rotation day. *)
Definition config (log : ZinxLoggerCore) : bytes * Z * Z * Z * bytes * bytes :=
  (prefix log, flag log, isolationLevel log, calldDepth log,
   fileName log, fileDir log).

(** ** [itoa] *)

Section Itoa.

Lemma wrap_int_id z : - 2 ^ 63 <= z < 2 ^ 63 -> wrap_int z = z.
Proof.
  intros Hz. unfold wrap_int.
  rewrite Z.mod_small; lia.
Qed.

Lemma digit_is_digit d : 0 <= d < 10 -> is_digit (digit d).
Proof.
  intros Hd. unfold is_digit, digit.
  rewrite nat_ascii_embedding; lia.
Qed.

Lemma digit_value_digit d : 0 <= d < 10 -> digit_value (digit d) = d.
Proof.
  intros Hd. unfold digit_value, digit.
  rewrite nat_ascii_embedding; lia.
Qed.

Lemma dec_value_snoc s c : dec_value (s ++ [c]) = 10 * dec_value s + digit_value c.
Proof. unfold dec_value. by rewrite fold_left_app. Qed.

(** The loop writes, in front of what the array already holds from [bp]
    on, the decimal digits of [u], padded with zeros up to [wID]. *)
Lemma itoa_loop_spec bp : forall u wID (b : bytes),
  0 <= u < 10 ^ Z.of_nat bp ->
  - 2 ^ 63 + Z.of_nat bp <= wID <= Z.of_nat bp ->
  (bp <= length b)%nat -> (bp <= 32)%nat ->
  exists bp' b' s,
    itoa_loop bp u wID b = Some (bp', b')
    /\ drop bp' b' = s ++ drop bp b
    /\ Forall is_digit s
    /\ dec_value s = u
    /\ wID <= Z.of_nat (length s)
    /\ (u < 10 ^ Z.max wID 0 -> Z.of_nat (length s) = Z.max wID 0).
Proof.
  induction bp as [|bp IH]; intros u wID b Hu Hw Hb Hbp.
  - exists 0%nat, b, []. simpl in *.
    assert (u = 0) as -> by lia.
    replace (0 <? wID) with false by (symmetry; apply Z.ltb_ge; lia).
    cbn. repeat split; auto; try lia.
  - cbn [itoa_loop].
    destruct ((0 <? u) || (0 <? wID)) eqn:Hc.
    + assert (0 <= u / 10 < 10 ^ Z.of_nat bp) as Hu'.
      { split; [apply Z.div_pos; lia|].
        apply Z.div_lt_upper_bound; [lia|].
        rewrite Nat2Z.inj_succ, Z.pow_succ_r in Hu; lia. }
      rewrite wrap_int_id by lia.
      destruct (IH (u / 10) (wID - 1) (<[bp := digit (u mod 10)]> b))
        as (bp' & b' & s & Hrun & Hdrop & Hdig & Hval & Hlen & Hfit);
        [done | lia | rewrite length_insert; lia | lia |].
      exists bp', b', (s ++ [digit (u mod 10)]).
      assert (0 <= u mod 10 < 10) as Hd by (apply Z.mod_pos_bound; lia).
      split; [done|]. split.
      { rewrite Hdrop, <- app_assoc. f_equal.
        rewrite (drop_S _ (digit (u mod 10)) bp)
          by (apply list_lookup_insert_eq; lia).
        simpl. f_equal. apply drop_insert_lt. lia. }
      split; [apply Forall_app; split; [done|];
              apply Forall_singleton, digit_is_digit; done|].
      split; [rewrite dec_value_snoc, Hval, digit_value_digit by done;
              rewrite (Z.div_mod u 10) at 3 by lia; lia|].
      rewrite length_app; simpl. split; [lia|].
      intros Hsmall.
      destruct (Z.le_gt_cases wID 0) as [Hneg|Hpos].
      * rewrite Z.max_r in Hsmall by lia. simpl in Hsmall.
        assert (u = 0) as -> by lia.
        apply orb_true_iff in Hc as [Hc|Hc]; apply Z.ltb_lt in Hc; lia.
      * rewrite (Z.max_l wID 0) in Hsmall |- * by lia.
        assert (u / 10 < 10 ^ Z.max (wID - 1) 0) as Hq.
        { rewrite Z.max_l by lia.
          apply Z.div_lt_upper_bound; [lia|].
          rewrite <- Z.pow_succ_r by lia.
          replace (Z.succ (wID - 1)) with wID by lia. done. }
        specialize (Hfit Hq). rewrite Z.max_l in Hfit by lia. lia.
    + apply orb_false_iff in Hc as [Hc1 Hc2].
      apply Z.ltb_ge in Hc1, Hc2.
      exists (S bp), b, []. assert (u = 0) as -> by lia.
      repeat split; auto; simpl; try lia.
Qed.

(** The buffer only grows: [itoa] appends to it. *)
Lemma itoa_app buffer i wID :
  itoa buffer i wID = (fun s => buffer ++ s) <$> itoa [] i wID.
Proof.
  unfold itoa.
  destruct ((uint i =? 0) && (wID <=? 1)); [done|].
  destruct (itoa_loop _ _ _ _) as [[bp b]|]; done.
Qed.

Lemma uint_range i : 0 <= uint i < 10 ^ Z.of_nat 32.
Proof.
  unfold uint.
  pose proof (Z.mod_pos_bound i (2 ^ 64) ltac:(lia)) as H.
  change (10 ^ Z.of_nat 32) with 100000000000000000000000000000000.
  change (2 ^ 64) with 18446744073709551616 in *. lia.
Qed.

(** [itoa] returns for every width the array can hold. *)
Lemma itoa_spec i wID :
  - 2 ^ 63 + 32 <= wID <= 32 ->
  exists s,
    itoa [] i wID = Some s
    /\ Forall is_digit s
    /\ dec_value s = uint i
    /\ (1 <= length s)%nat
    /\ wID <= Z.of_nat (length s)
    /\ (1 <= wID -> uint i < 10 ^ wID -> Z.of_nat (length s) = wID).
Proof.
  intros Hw. unfold itoa.
  destruct ((uint i =? 0) && (wID <=? 1)) eqn:Hz.
  - apply andb_true_iff in Hz as [Hz Hw1].
    apply Z.eqb_eq in Hz. apply Z.leb_le in Hw1.
    exists ["0"%char]. rewrite Hz. simpl.
    repeat split; try lia.
    + apply Forall_singleton. unfold is_digit.
      change (nat_of_ascii "0") with 48%nat. lia.
  - destruct (itoa_loop_spec 32 (uint i) wID (replicate 32 "000"%char))
      as (bp & b & s & Hrun & Hdrop & Hdig & Hval & Hlen & Hfit);
      [apply uint_range | simpl; lia | rewrite length_replicate; lia | lia |].
    rewrite Hrun. simpl. exists s.
    rewrite Hdrop, drop_ge, app_nil_r by (rewrite length_replicate; lia).
    repeat split; try done.
    + apply andb_false_iff in Hz as [Hz|Hz].
      * apply Z.eqb_neq in Hz. destruct s; [|simpl; lia].
        unfold dec_value in Hval. simpl in Hval. lia.
      * apply Z.leb_gt in Hz. lia.
    + intros H1 Hsmall. rewrite Z.max_l in Hfit by lia. auto.
Qed.

Lemma itoa_digits buffer i wID :
  - 2 ^ 63 + 32 <= wID <= 32 ->
  itoa buffer i wID = Some (buffer ++ digits i wID).
Proof.
  intros Hw. rewrite itoa_app. unfold digits.
  destruct (itoa_spec i wID Hw) as (s & -> & _). done.
Qed.

End Itoa.

(** C7. [itoa] zero-pads to the requested width and renders zero as ["0"]:
    7 at width 2 is ["07"]; 0 at width 1, and 0 with no fixed width (-1),
    is ["0"]. In general, for a non-negative [i] and a width the array can
    hold, [itoa] appends a non-empty string of decimal digits that denotes
    [i], has at least [wID] characters, and has exactly [wID] of them when
    [i] fits in [wID] digits. *)
Theorem itoa_zero_padded :
  itoa [] 7 2 = Some ("07" : bytes)
  /\ itoa [] 0 1 = Some ("0" : bytes)
  /\ itoa [] 0 (-1) = Some ("0" : bytes)
  /\ forall (buffer : bytes) (i wID : Z),
       0 <= i < 2 ^ 63 -> -1 <= wID <= 32 ->
       exists s,
         itoa buffer i wID = Some (buffer ++ s)
         /\ Forall is_digit s
         /\ dec_value s = i
         /\ (1 <= length s)%nat
         /\ wID <= Z.of_nat (length s)
         /\ (1 <= wID -> i < 10 ^ wID -> Z.of_nat (length s) = wID).
Proof.
  split; [reflexivity|]. split; [reflexivity|]. split; [reflexivity|].
  intros buffer i wID Hi Hw.
  destruct (itoa_spec i wID) as (s & Hs & Hdig & Hval & Hne & Hlen & Hfit); [lia|].
  assert (uint i = i) as Hu by (unfold uint; apply Z.mod_small; lia).
  rewrite Hu in *.
  exists s. rewrite itoa_app, Hs. auto 10.
Qed.

Lemma itoa_zero_padded_witness :
  exists s,
    itoa ("line " : bytes) 42 6 = Some (("line " : bytes) ++ s)
    /\ Forall is_digit s
    /\ dec_value s = 42
    /\ (1 <= length s)%nat
    /\ 6 <= Z.of_nat (length s)
    /\ (1 <= 6 -> 42 < 10 ^ 6 -> Z.of_nat (length s) = 6).
Proof.
  destruct itoa_zero_padded as (_ & _ & _ & H).
  apply (H ("line " : bytes) 42 6); lia.
Defined.

(** ** The short file name *)

Section ShortFile.

Implicit Types path : bytes.

(** Scanning down from [i] meets no separator: the path is kept. *)
Lemma short_scan_none path i :
  (forall j, (1 <= j <= i)%nat -> path !! j <> Some slash) ->
  short_scan path i = path.
Proof.
  induction i as [|i IH]; intros Hno; simpl; [done|].
  case_decide as Hi.
  - exfalso. apply (Hno (S i)); [lia | done].
  - apply IH. intros j Hj. apply Hno. lia.
Qed.

(** Scanning down from [i] stops at the last separator at or below [i],
    if it is not at index 0. *)
Lemma short_scan_some path i k :
  (1 <= k <= i)%nat ->
  path !! k = Some slash ->
  (forall j, (k < j <= i)%nat -> path !! j <> Some slash) ->
  short_scan path i = drop (S k) path.
Proof.
  induction i as [|i IH]; intros Hk Hat Hno; simpl; [lia|].
  case_decide as Hi.
  - destruct (decide (k = S i)) as [->|Hne]; [by rewrite Nat.add_1_r|].
    exfalso. apply (Hno (S i)); [lia | done].
  - destruct (decide (k = S i)) as [->|Hne]; [done|].
    apply IH; [lia | done |]. intros j Hj. apply Hno. lia.
Qed.

(** A scan that changes the path found a separator at index 1 or later. *)
Lemma short_scan_changed path i :
  short_scan path i <> path ->
  exists k, (1 <= k <= i)%nat /\ path !! k = Some slash.
Proof.
  induction i as [|i IH]; simpl; [done|].
  case_decide as Hi; intros Hne.
  - exists (S i). split; [lia | done].
  - destruct (IH Hne) as (k & Hk & Hat). exists k. split; [lia | done].
Qed.

End ShortFile.

(** C9. The backward scan of the short-file branch stops before index 0:
    a path with no ['/'] at index 1 or later (so also one whose only ['/']
    is its first character, such as ["/main.go"]) is rendered unchanged;
    the path is changed only when a separator occurs at index 1 or later,
    and then everything up to the last separator is dropped. *)
Theorem shortFile_ignores_index_0 :
  shortFile ("/main.go" : bytes) = ("/main.go" : bytes)
  /\ (forall path : bytes,
        (forall j, (1 <= j)%nat -> path !! j <> Some slash) ->
        shortFile path = path)
  /\ (forall path : bytes,
        shortFile path <> path ->
        exists k, (1 <= k)%nat /\ path !! k = Some slash)
  /\ (forall (path : bytes) (k : nat),
        (1 <= k)%nat ->
        path !! k = Some slash ->
        (forall j, (k < j)%nat -> path !! j <> Some slash) ->
        shortFile path = drop (S k) path).
Proof.
  split; [reflexivity|]. split; [|split].
  - intros path Hno. apply short_scan_none. intros j Hj. apply Hno. lia.
  - intros path Hne. destruct (short_scan_changed _ _ Hne) as (k & Hk & Hat).
    exists k. split; [lia | done].
  - intros path k Hk Hat Hno.
    apply short_scan_some; [|done|intros j Hj; apply Hno; lia].
    apply lookup_lt_Some in Hat. lia.
Qed.

Lemma shortFile_ignores_index_0_witness :
  shortFile ("/server.go" : bytes) = ("/server.go" : bytes)
  /\ shortFile ("/a/b/c.go" : bytes) = drop 5 ("/a/b/c.go" : bytes).
Proof.
  destruct shortFile_ignores_index_0 as (_ & Hkeep & _ & Hstrip). split.
  - apply Hkeep. intros j Hj.
    do 10 (destruct j as [|j]; [first [lia | discriminate]|]). discriminate.
  - apply (Hstrip ("/a/b/c.go" : bytes) 4%nat); [lia | reflexivity |].
    intros j Hj.
    do 9 (destruct j as [|j]; [first [lia | discriminate]|]). discriminate.
Defined.

(** ** The header formatter *)

Section Header.

Implicit Types (log : ZinxLoggerCore) (t : Time) (b path : bytes).

Lemma has_lor f m1 m2 : has f (Z.lor m1 m2) = has f m1 || has f m2.
Proof.
  unfold has. rewrite Z.land_lor_distr_r.
  destruct (Z.eqb_spec (Z.land f m1) 0) as [H1|H1];
    destruct (Z.eqb_spec (Z.land f m2) 0) as [H2|H2]; simpl;
    destruct (Z.eqb_spec (Z.lor (Z.land f m1) (Z.land f m2)) 0) as [H|H];
    try done; try (apply Z.lor_eq_0_iff in H; tauto).
  exfalso. apply H. apply Z.lor_eq_0_iff. done.
Qed.

Lemma header_date_eq t b :
  header_date t b =
  Some (b ++ digits (tYear t) 4 ++ [slash] ++ digits (tMonth t) 2 ++ [slash]
          ++ digits (tDay t) 2 ++ [" "%char]).
Proof.
  unfold header_date. repeat (rewrite itoa_digits by lia; simpl).
  by rewrite <- ?app_assoc.
Qed.

Lemma header_clock_eq f t b :
  header_clock f t b =
  Some (b ++ digits (tHour t) 2 ++ [":"%char] ++ digits (tMinute t) 2
          ++ [":"%char] ++ digits (tSecond t) 2
          ++ (if has f BitMicroSeconds
              then ["."%char] ++ digits (tNanosecond t / 1000) 6 else [])
          ++ [" "%char]).
Proof.
  unfold header_clock. repeat (rewrite itoa_digits by lia; simpl).
  destruct (has f BitMicroSeconds); simpl; by rewrite <- ?app_assoc.
Qed.

Lemma header_file_eq f path line b :
  header_file f path line b =
  Some (b ++ (if has f BitShortFile then shortFile path else path)
          ++ [":"%char] ++ digits line (-1) ++ (": " : bytes)).
Proof.
  unfold header_file. rewrite itoa_digits by lia. simpl.
  by rewrite <- ?app_assoc.
Qed.

Local Ltac header_step :=
  simpl; rewrite ?header_date_eq, ?header_clock_eq, ?header_file_eq; simpl.

(** The header as one concatenation of its fields. The only way the
    formatter can fail is the lookup of the severity tag. *)
Lemma formatHeader_fields log t path line level :
  formatHeader log t path line level =
  if has (flag log) (Z.lor (Z.lor BitDate BitTime) BitMicroSeconds) then
    tag ← (if has (flag log) BitLevel then level_tag level else Some []);
    Some (set_buf (buf log ++ prefix_field log ++ date_field (flag log) t
                     ++ clock_field (flag log) t ++ tag
                     ++ file_field (flag log) path line) log)
  else Some (set_buf (buf log ++ prefix_field log) log).
Proof.
  unfold formatHeader, prefix_field, date_field, clock_field, file_field.
  set (b0 := if decide (prefix log = []) then buf log else _).
  assert (b0 = buf log ++ (if decide (prefix log = []) then []
                           else ["<"%char] ++ prefix log ++ [">"%char])) as ->.
  { subst b0. case_decide; [by rewrite app_nil_r | done]. }
  destruct (has (flag log) (Z.lor (Z.lor BitDate BitTime) BitMicroSeconds));
    [|done].
  destruct (has (flag log) BitDate); header_step;
    destruct (has (flag log) (Z.lor BitTime BitMicroSeconds)); header_step;
    (destruct (has (flag log) BitLevel); header_step;
     [destruct (level_tag level) as [tag|]; header_step; [|done]|]);
    destruct (has (flag log) (Z.lor BitShortFile BitLongFile)); header_step;
    rewrite <- ?app_assoc, ?app_nil_r; simpl; rewrite <- ?app_assoc; done.
Qed.

Lemma level_tag_in_range level :
  0 <= level <= 5 -> exists tag, level_tag level = Some tag.
Proof.
  intros H.
  assert (level = 0 \/ level = 1 \/ level = 2 \/ level = 3 \/ level = 4 \/ level = 5)
    as [-> | [-> | [-> | [-> | [-> | ->]]]]] by lia; eexists; reflexivity.
Qed.

(** With a severity of the table the formatter never panics. *)
Lemma formatHeader_total log t path line level :
  0 <= level <= 5 -> exists hdr, formatHeader log t path line level = Some hdr.
Proof.
  intros H. rewrite formatHeader_fields.
  destruct (level_tag_in_range level H) as [tag Htag].
  destruct (has _ _); [|eauto].
  destruct (has _ BitLevel); simpl; [rewrite Htag|]; simpl; eauto.
Qed.

Lemma formatHeader_frame log t path line level hdr :
  formatHeader log t path line level = Some hdr ->
  exists h, hdr = set_buf (buf log ++ h) log.
Proof.
  rewrite formatHeader_fields. intros H.
  destruct (has _ _); [|injection H as <-; eauto].
  destruct (has _ BitLevel); simpl in H;
    [destruct (level_tag level); simpl in H; [|done]|];
    injection H as <-; eauto.
Qed.

End Header.

(** C5. When none of the date, time and microseconds bits is set, the
    formatter appends only the prefix: neither the severity tag nor the
    file and line, whatever the Level, ShortFile and LongFile bits are.
    When one of the three is set, the tag follows the Level bit and the
    file and line follow the ShortFile and LongFile bits. *)
Theorem formatHeader_time_gate (log : ZinxLoggerCore) (t : Time)
    (path : bytes) (line level : Z) :
  (has (flag log) BitDate = false ->
   has (flag log) BitTime = false ->
   has (flag log) BitMicroSeconds = false ->
   formatHeader log t path line level
   = Some (set_buf (buf log ++ prefix_field log) log))
  /\ (has (flag log) BitDate || has (flag log) BitTime
        || has (flag log) BitMicroSeconds = true ->
      0 <= level <= 5 ->
      exists tag,
        levels !! Z.to_nat level = Some tag
        /\ formatHeader log t path line level
           = Some (set_buf
                     (buf log ++ prefix_field log
                        ++ date_field (flag log) t ++ clock_field (flag log) t
                        ++ (if has (flag log) BitLevel then tag else [])
                        ++ (if has (flag log) BitShortFile
                               || has (flag log) BitLongFile
                            then (if has (flag log) BitShortFile
                                  then shortFile path else path)
                                   ++ [":"%char] ++ digits line (-1)
                                   ++ (": " : bytes)
                            else []))
                     log)).
Proof.
  rewrite formatHeader_fields, !has_lor. split.
  - intros -> -> ->. done.
  - intros -> Hlevel.
    destruct (level_tag_in_range level Hlevel) as [tag Htag].
    exists tag. split.
    + unfold level_tag in Htag.
      destruct (level <? 0) eqn:Hneg; [done | exact Htag].
    + unfold file_field. rewrite has_lor.
      destruct (has (flag log) BitLevel); simpl; [rewrite Htag|]; done.
Qed.

Lemma formatHeader_time_gate_witness :
  formatHeader (NewZinxLog WStderr ("SRV" : bytes) (Z.lor BitLevel BitShortFile))
               noon ("/home/go/src/zinx/server.go" : bytes) 42 LogError
  = Some (set_buf ("<SRV>" : bytes)
            (NewZinxLog WStderr ("SRV" : bytes) (Z.lor BitLevel BitShortFile)))
  /\ exists tag,
       levels !! Z.to_nat LogError = Some tag
       /\ buf <$> formatHeader srv_log noon
                     ("/home/go/src/zinx/server.go" : bytes) 42 LogError
          = Some ("<SRV>2019/04/11 11:15:33 [ERROR]server.go:42: " : bytes).
Proof.
  split.
  - apply (proj1 (formatHeader_time_gate
                    (NewZinxLog WStderr ("SRV" : bytes) (Z.lor BitLevel BitShortFile))
                    noon ("/home/go/src/zinx/server.go" : bytes) 42 LogError));
      reflexivity.
  - destruct (proj2 (formatHeader_time_gate srv_log noon
                       ("/home/go/src/zinx/server.go" : bytes) 42 LogError))
      as (tag & Htag & Heq); [reflexivity | unfold LogError; lia |].
    exists tag. split; [exact Htag|]. rewrite Heq.
    vm_compute in Htag. injection Htag as <-. reflexivity.
Defined.

(** ** System calls only add to the trace *)

Section Trace.

Implicit Types (w : World) (log : ZinxLoggerCore).

Lemma grows_refl w : grows w w.
Proof. exists []. by rewrite app_nil_r. Qed.

Lemma grows_trans w1 w2 w3 : grows w1 w2 -> grows w2 w3 -> grows w1 w3.
Proof.
  intros [c1 H1] [c2 H2]. exists (c1 ++ c2). by rewrite H2, H1, app_assoc.
Qed.

Lemma grows_log_call c w : grows w (log_call c w).
Proof. by exists [c]. Qed.

Lemma Now_grows w : grows w (Now w).2.
Proof. exists []. simpl. by rewrite app_nil_r. Qed.

Lemma os_Stat_grows p w : grows w (os_Stat p w).2.
Proof. apply grows_log_call. Qed.

Lemma os_MkdirAll_grows d w : grows w (os_MkdirAll d w).2.
Proof.
  unfold os_MkdirAll. repeat case_decide; simpl; by exists [SysMkdirAll d].
Qed.

Lemma os_OpenFile_grows p c w : grows w (os_OpenFile p c w).2.
Proof.
  unfold os_OpenFile. repeat case_decide; simpl;
    repeat (case_match; simpl); eexists [_]; done.
Qed.

Lemma os_Close_grows fd w : grows w (os_Close fd w).2.
Proof. unfold os_Close. case_match; simpl; by exists [SysClose fd]. Qed.

Lemma mkdirLog_grows d w : grows w (mkdirLog d w).2.
Proof.
  unfold mkdirLog.
  pose proof (os_Stat_grows d w) as H1.
  destruct (os_Stat d w) as [er w1]. simpl in H1.
  case_match; [done|].
  pose proof (os_MkdirAll_grows d w1) as H2.
  destruct (os_MkdirAll d w1) as [err w2]. simpl in *.
  by eapply grows_trans.
Qed.

Lemma checkFileExist_grows p w : grows w (checkFileExist p w).2.
Proof. apply grows_log_call. Qed.

Lemma closeFile_grows log w : grows w (closeFile log w).2.
Proof.
  unfold closeFile. destruct (file log) as [fd|]; [|apply grows_refl].
  pose proof (os_Close_grows fd w) as H.
  by destruct (os_Close fd w).
Qed.

Lemma closeFile_buf log w : buf (closeFile log w).1 = buf log.
Proof.
  unfold closeFile. destruct (file log) as [fd|]; [|done].
  by destruct (os_Close fd w).
Qed.

(** The guard [if log.file != nil] around the call repeats the test
    [closeFile] makes itself. *)
Lemma guarded_closeFile log w :
  match file log with Some _ => closeFile log w | None => (log, w) end
  = closeFile log w.
Proof. unfold closeFile. by destruct (file log). Qed.

Lemma rotate_grows yd log w : grows w (rotate yd log w).2.
Proof.
  unfold rotate.
  pose proof (mkdirLog_grows (fileDir (set_lastWriteDate yd log)) w) as H1.
  destruct (mkdirLog _ w) as [e w1].
  pose proof (Now_grows w1) as H2.
  destruct (Now w1) as [t w2].
  match goal with |- context [checkFileExist ?p w2] =>
    pose proof (checkFileExist_grows p w2) as H3;
    destruct (checkFileExist p w2) as [ex w3];
    pose proof (os_OpenFile_grows p (negb ex) w3) as H4;
    destruct (os_OpenFile p (negb ex) w3) as [[f e4] w4]
  end.
  rewrite guarded_closeFile.
  pose proof (closeFile_grows (set_lastWriteDate yd log) w4) as H5.
  destruct (closeFile _ w4) as [log5 w5]. simpl in *.
  eauto using grows_trans.
Qed.

Lemma rotate_buf yd log w : buf (rotate yd log w).1 = buf log.
Proof.
  unfold rotate.
  destruct (mkdirLog _ w) as [e w1].
  destruct (Now w1) as [t w2].
  destruct (checkFileExist _ w2) as [ex w3].
  destruct (os_OpenFile _ _ w3) as [[f e4] w4].
  rewrite guarded_closeFile.
  pose proof (closeFile_buf (set_lastWriteDate yd log) w4) as H5.
  by destruct (closeFile _ w4) as [log5 w5].
Qed.

Lemma updateOutputFile_grows log w : grows w (updateOutputFile log w).2.
Proof.
  unfold updateOutputFile. simpl.
  destruct (is_current log _); [apply (Now_grows w)|].
  eapply grows_trans; [apply (Now_grows w) | apply rotate_grows].
Qed.

Lemma updateOutputFile_buf log w : buf (updateOutputFile log w).1 = buf log.
Proof.
  unfold updateOutputFile. simpl.
  destruct (is_current log _); [done|]. apply rotate_buf.
Qed.

(** The last call of a [Write] is the write itself, with its result. *)
Lemma Write_trace o data w :
  w_trace (Write o data w).2 = w_trace w ++ [SysWrite o data (Write o data w).1].
Proof.
  unfold Write. destruct o as [|[fd|]|id]; simpl; try done.
  destruct (w_open w !! fd); [destruct (w_full w)|]; done.
Qed.

End Trace.

(** ** The emit operation *)

Section Emit.

Implicit Types (w : World) (log : ZinxLoggerCore) (s : bytes).

Lemma needs_newline_iff s :
  needs_newline s = true <-> s <> [] /\ last s <> Some newline.
Proof.
  unfold needs_newline. rewrite andb_true_iff, negb_true_iff.
  rewrite bool_decide_eq_true, bool_decide_eq_false, last_lookup.
  replace (pred (length s)) with (length s - 1)%nat by lia.
  destruct s; simpl; [split; intros [? ?]; [lia | done]|].
  split; intros [_ H]; (split; [first [done | lia] | done]).
Qed.

(** Once the header is formatted, [OutPut] always reaches its [Write],
    which is handed the whole buffer and whose error it returns. *)
Lemma OutPut_emits level s caller log w hdr :
  formatHeader (set_buf [] log) (w_clock w (w_reads w))
               (located log caller).1 (located log caller).2 level = Some hdr ->
  exists err log' w' calls,
    OutPut level s caller log w = Some (err, log', w')
    /\ buf log' = line_of (buf hdr) s
    /\ w_trace w' = w_trace w ++ calls ++ [SysWrite (out log') (buf log') err].
Proof.
  intros Hhdr. unfold OutPut, Now.
  destruct (located log caller) as [path line]. simpl in Hhdr.
  rewrite Hhdr. simpl.
  set (log1 := if needs_newline s then _ else _).
  assert (buf log1 = line_of (buf hdr) s) as Hbuf.
  { subst log1. unfold line_of. destruct (needs_newline s); simpl.
    - by rewrite <- app_assoc.
    - by rewrite app_nil_r. }
  pose proof (updateOutputFile_grows log1 (tick w)) as [calls Hcalls].
  pose proof (updateOutputFile_buf log1 (tick w)) as Hkeep.
  destruct (updateOutputFile log1 (tick w)) as [log2 w2]. simpl in *.
  pose proof (Write_trace (out log2) (buf log2) w2) as Htr.
  destruct (Write (out log2) (buf log2) w2) as [err w3]. simpl in *.
  exists err, log2, w3, calls. split; [done|]. split; [congruence|].
  by rewrite Htr, Hcalls, <- app_assoc.
Qed.

(** With a severity of the table [OutPut] never panics. *)
Lemma OutPut_total level s caller log w :
  0 <= level <= 5 ->
  exists hdr err log' w' calls,
    formatHeader (set_buf [] log) (w_clock w (w_reads w))
                 (located log caller).1 (located log caller).2 level = Some hdr
    /\ OutPut level s caller log w = Some (err, log', w')
    /\ buf log' = line_of (buf hdr) s
    /\ w_trace w' = w_trace w ++ calls ++ [SysWrite (out log') (buf log') err].
Proof.
  intros Hlevel.
  destruct (formatHeader_total (set_buf [] log) (w_clock w (w_reads w))
              (located log caller).1 (located log caller).2 level Hlevel)
    as [hdr Hhdr].
  destruct (OutPut_emits level s caller log w hdr Hhdr)
    as (err & log' & w' & calls & H).
  exists hdr, err, log', w', calls. tauto.
Qed.

(** Every entry point is the gate (but for [Stack]) followed by [OutPut]
    at the severity of the call. *)
Lemma run_unfold (c : Call) caller log w :
  run c caller log w =
  if gated c && verifyLogIsolation log (severity c) then Some (Returned, log, w)
  else '(_, log, w) ← OutPut (severity c) (message c) caller log w;
       Some (ending c, log, w).
Proof. destruct c; reflexivity. Qed.

Lemma severity_in_table (c : Call) : 0 <= severity c <= 5.
Proof. destruct c; cbv; split; discriminate. Qed.

Lemma verifyLogIsolation_gt log level :
  verifyLogIsolation log level = true <-> isolationLevel log > level.
Proof.
  unfold verifyLogIsolation.
  destruct (Z.gtb_spec (isolationLevel log) level); split; first [done | lia].
Qed.

End Emit.

(** ** The level gate *)

(** C3. A call of the severity API at severity [s] is suppressed exactly
    when the isolation level is greater than [s]: it then returns at once
    and leaves logger and world untouched. Otherwise the header is
    formatted, the line is handed to the sink by one [Write], and the call
    ends the way its method does. *)
Theorem gate_suppresses_iff (c : Call) (caller : option (bytes * Z))
    (log : ZinxLoggerCore) (w : World) :
  gated c = true ->
  (suppressed c caller log w <-> isolationLevel log > severity c)
  /\ (~ isolationLevel log > severity c ->
      exists hdr err log' w' calls,
        formatHeader (set_buf [] log) (w_clock w (w_reads w))
                     (located log caller).1 (located log caller).2 (severity c)
        = Some hdr
        /\ run c caller log w = Some (ending c, log', w')
        /\ buf log' = line_of (buf hdr) (message c)
        /\ w_trace w'
           = w_trace w ++ calls ++ [SysWrite (out log') (buf log') err]).
Proof.
  intros Hgated.
  assert (~ isolationLevel log > severity c ->
          exists hdr err log' w' calls,
            formatHeader (set_buf [] log) (w_clock w (w_reads w))
                         (located log caller).1 (located log caller).2 (severity c)
            = Some hdr
            /\ run c caller log w = Some (ending c, log', w')
            /\ buf log' = line_of (buf hdr) (message c)
            /\ w_trace w'
               = w_trace w ++ calls ++ [SysWrite (out log') (buf log') err])
    as Hemit.
  { intros Hle.
    destruct (OutPut_total (severity c) (message c) caller log w
                (severity_in_table c))
      as (hdr & err & log' & w' & calls & Hhdr & Hout & Hbuf & Htr).
    exists hdr, err, log', w', calls. repeat split; try done.
    rewrite run_unfold, Hgated. simpl.
    destruct (verifyLogIsolation log (severity c)) eqn:Hv.
    - apply verifyLogIsolation_gt in Hv. done.
    - by rewrite Hout. }
  split; [|exact Hemit]. unfold suppressed. split.
  - intros Hsup. destruct (decide (isolationLevel log > severity c)) as [|Hle]; [done|].
    destruct (Hemit Hle) as (hdr & err & log' & w' & calls & _ & Hrun & _ & Htr).
    rewrite Hrun in Hsup. injection Hsup as _ _ ->.
    apply (f_equal length) in Htr. rewrite !length_app in Htr. simpl in Htr. lia.
  - intros Hgt. rewrite run_unfold, Hgated. simpl.
    apply verifyLogIsolation_gt in Hgt. by rewrite Hgt.
Qed.

Lemma gate_suppresses_iff_witness :
  suppressed (CDebug [("x" : bytes)]) here (SetLogLevel LogInfo srv_log) world0
  <-> isolationLevel (SetLogLevel LogInfo srv_log) > severity (CDebug [("x" : bytes)]).
Proof.
  apply (gate_suppresses_iff (CDebug [("x" : bytes)]) here
           (SetLogLevel LogInfo srv_log) world0).
  reflexivity.
Defined.

Section Gate.

Lemma passes_iff L s : passes L s <-> L <= s.
Proof.
  unfold passes. split.
  - intros H. specialize (H srv_log).
    destruct (decide (L <= s)) as [|Hgt]; [done|].
    assert (verifyLogIsolation (SetLogLevel L srv_log) s = true) as Hv
      by (apply verifyLogIsolation_gt; simpl; lia).
    congruence.
  - intros Hle log.
    destruct (verifyLogIsolation (SetLogLevel L log) s) eqn:Hv; [|done].
    apply verifyLogIsolation_gt in Hv. simpl in Hv. lia.
Qed.

End Gate.

(** C8, as stated, fails: between the isolation levels 6 and
    7 no severity of the table is emitted under the lower one and
    suppressed under the higher one, both suppress all six. *)
Lemma raising_above_fatal_removes_nothing :
  6 < 7 /\ ~ exists s, 0 <= s <= 5 /\ passes 6 s /\ ~ passes 7 s.
Proof.
  split; [lia|]. intros (s & Hs & H6 & _). apply passes_iff in H6. lia.
Qed.

(** C8, amended. For isolation levels [L1 < L2], every severity emitted
    under [L2] is emitted under [L1]; and some severity of DEBUG..FATAL is
    emitted under [L1] but suppressed under [L2] exactly when [L1 <= 5] and
    [1 <= L2]. *)
Theorem raising_isolation_monotone (L1 L2 : Z) :
  L1 < L2 ->
  (forall s, passes L2 s -> passes L1 s)
  /\ ((exists s, 0 <= s <= 5 /\ passes L1 s /\ ~ passes L2 s)
      <-> L1 <= 5 /\ 1 <= L2).
Proof.
  intros Hlt. split.
  - intros s H2. apply passes_iff in H2. apply passes_iff. lia.
  - split.
    + intros (s & Hs & H1 & H2). apply passes_iff in H1.
      rewrite passes_iff in H2. lia.
    + intros [H1 H2]. exists (Z.max L1 0).
      rewrite !passes_iff. lia.
Qed.

Lemma raising_isolation_monotone_witness :
  (forall s, passes LogError s -> passes LogInfo s)
  /\ ((exists s, 0 <= s <= 5 /\ passes LogInfo s /\ ~ passes LogError s)
      <-> LogInfo <= 5 /\ 1 <= LogError).
Proof.
  apply (raising_isolation_monotone LogInfo LogError). reflexivity.
Defined.

(** ** Fatal *)

(** C4, as stated, fails: with the isolation level above
    FATAL, [Fatalf] and [Fatal] return to their caller; nothing is emitted
    and the process does not exit. *)
Lemma Fatal_suppressed_returns :
  Fatalf ("die" : bytes) here (SetLogLevel 6 srv_log) world0
  = Some (Returned, SetLogLevel 6 srv_log, world0)
  /\ Fatal [("die" : bytes)] here (SetLogLevel 6 srv_log) world0
     = Some (Returned, SetLogLevel 6 srv_log, world0).
Proof. split; reflexivity. Qed.

(** C4, amended. A call of [Fatalf] or [Fatal] that the gate lets through
    (isolation level at most FATAL) hands its line to the sink and then
    ends the process with exit status 1, whatever the [Write] returned;
    with a higher isolation level it returns without emitting. *)
Theorem Fatal_exits_unless_suppressed (c : Call) (caller : option (bytes * Z))
    (log : ZinxLoggerCore) (w : World) :
  severity c = LogFatal ->
  (isolationLevel log <= LogFatal ->
   exists err log' w' calls,
     OutPut LogFatal (message c) caller log w = Some (err, log', w')
     /\ run c caller log w = Some (Exited 1, log', w')
     /\ w_trace w'
        = w_trace w ++ calls ++ [SysWrite (out log') (buf log') err])
  /\ (isolationLevel log > LogFatal ->
      run c caller log w = Some (Returned, log, w)).
Proof.
  intros Hsev.
  assert (gated c = true /\ ending c = Exited 1) as [Hgated Hend]
    by (destruct c; try discriminate Hsev; done).
  rewrite run_unfold, Hgated, Hend, Hsev. simpl. split.
  - intros Hle.
    destruct (OutPut_total LogFatal (message c) caller log w)
      as (hdr & err & log' & w' & calls & _ & Hout & _ & Htr);
      [unfold LogFatal; lia|].
    exists err, log', w', calls. split; [done|]. split; [|done].
    destruct (verifyLogIsolation log LogFatal) eqn:Hv.
    + apply verifyLogIsolation_gt in Hv. lia.
    + by rewrite Hout.
  - intros Hgt. apply verifyLogIsolation_gt in Hgt. by rewrite Hgt.
Qed.

Lemma Fatal_exits_unless_suppressed_witness :
  exists err log' w' calls,
    OutPut LogFatal (message (CFatalf ("die" : bytes))) here srv_log (fill world0)
    = Some (err, log', w')
    /\ run (CFatalf ("die" : bytes)) here srv_log (fill world0)
       = Some (Exited 1, log', w')
    /\ w_trace w'
       = w_trace (fill world0) ++ calls ++ [SysWrite (out log') (buf log') err].
Proof.
  apply (Fatal_exits_unless_suppressed (CFatalf ("die" : bytes)) here srv_log
           (fill world0)).
  - reflexivity.
  - vm_compute. discriminate.
Defined.

(** The write of a fatal line can fail, and the process exits all the
    same. *)
Example Fatal_exits_after_failed_write :
  observe_call (Fatalf ("die" : bytes) here srv_log (fill world0))
  = Some (Exited 1,
          Some (SysWrite (WFile (Some 3%nat))
                  ("<SRV>2019/04/11 11:15:33 [FATAL]server.go:42: die" ++ [newline])
                  (Some ErrNoSpace))).
Proof. vm_compute. reflexivity. Qed.

(** C10, as stated, fails: [OutPut] is exported too and hands its level
    to the table unchecked; called with level 6 on a logger with the
    default flags, the lookup is out of range and the call panics. *)
Lemma OutPut_level_out_of_range_panics :
  has (flag srv_log) BitLevel = true
  /\ levels !! Z.to_nat 6 = None
  /\ OutPut 6 ("x" : bytes) here srv_log world0 = None.
Proof. repeat split. Qed.

(** C10, amended. The table of severity tags has six entries and each of
    Debug, Info, Warn, Error, Panic, Fatal (both variants) and Stack hands
    [OutPut] a severity between 0 and 5, so in every call made through
    these methods the lookup of the tag is in bounds and the call does not
    panic. *)
Theorem severity_tag_in_bounds (c : Call) (caller : option (bytes * Z))
    (log : ZinxLoggerCore) (w : World) :
  length levels = 6%nat
  /\ 0 <= severity c <= 5
  /\ (exists tag, levels !! Z.to_nat (severity c) = Some tag
                  /\ level_tag (severity c) = Some tag)
  /\ run c caller log w
     = (if gated c && verifyLogIsolation log (severity c)
        then Some (Returned, log, w)
        else '(_, log, w) ← OutPut (severity c) (message c) caller log w;
             Some (ending c, log, w))
  /\ is_Some (run c caller log w).
Proof.
  split; [reflexivity|]. split; [apply severity_in_table|]. split.
  { destruct (level_tag_in_range _ (severity_in_table c)) as [tag Htag].
    exists tag. split; [|done].
    unfold level_tag in Htag. by destruct (severity c <? 0). }
  split; [apply run_unfold|].
  rewrite run_unfold.
  destruct (gated c && verifyLogIsolation log (severity c)); [done|].
  destruct (OutPut_total (severity c) (message c) caller log w
              (severity_in_table c))
    as (hdr & err & log' & w' & calls & _ & -> & _).
  done.
Qed.

(** ** The line terminator *)

Section Terminator.

Implicit Types s : bytes.

(** For a message that is not empty, the source's test and the
    specification's wording agree. *)
Lemma line_of_terminated hdr s : s <> [] -> line_of hdr s = hdr ++ terminated s.
Proof.
  intros Hne. unfold line_of, terminated. f_equal.
  destruct (needs_newline s) eqn:Hn.
  - apply needs_newline_iff in Hn as [_ Hlast]. by rewrite decide_False.
  - destruct (decide (last s = Some newline)) as [|Hlast]; [by rewrite app_nil_r|].
    assert (needs_newline s = true) by (by apply needs_newline_iff).
    congruence.
Qed.

End Terminator.

(** C6, as stated, fails on the empty message: it does not
    end in a line terminator, yet the buffer handed to the sink is the
    header alone, with no terminator after it. *)
Lemma empty_message_gets_no_terminator :
  last ([] : bytes) <> Some newline
  /\ observe (OutPut LogInfo [] here srv_log world0)
     = Some (None, WFile (Some 3%nat), Some 3%nat, 101,
             ("<SRV>2019/04/11 11:15:33 [INFO]server.go:42: " : bytes),
             Some (SysWrite (WFile (Some 3%nat))
                     ("<SRV>2019/04/11 11:15:33 [INFO]server.go:42: " : bytes)
                     None),
             []).
Proof. split; [discriminate|]. vm_compute. reflexivity. Qed.

(** C6, amended. For every message that is not empty, [OutPut] hands the
    sink, in one [Write], the header followed by the message and, when the
    message does not already end in a line terminator, exactly one
    terminator; a message ending in one is written unchanged. *)
Theorem OutPut_terminates_line (level : Z) (s : bytes)
    (caller : option (bytes * Z)) (log : ZinxLoggerCore) (w : World) :
  0 <= level <= 5 ->
  s <> [] ->
  exists hdr err log' w' calls,
    formatHeader (set_buf [] log) (w_clock w (w_reads w))
                 (located log caller).1 (located log caller).2 level = Some hdr
    /\ OutPut level s caller log w = Some (err, log', w')
    /\ buf log' = buf hdr ++ terminated s
    /\ w_trace w'
       = w_trace w ++ calls ++ [SysWrite (out log') (buf hdr ++ terminated s) err]
    /\ (last s = Some newline -> terminated s = s)
    /\ (last s <> Some newline -> terminated s = s ++ [newline]).
Proof.
  intros Hlevel Hne.
  destruct (OutPut_total level s caller log w Hlevel)
    as (hdr & err & log' & w' & calls & Hhdr & Hout & Hbuf & Htr).
  rewrite line_of_terminated in Hbuf by done.
  exists hdr, err, log', w', calls.
  split; [done|]. split; [done|]. split; [done|].
  split; [by rewrite <- Hbuf|].
  unfold terminated. split; intros H.
  - by rewrite decide_True.
  - by rewrite decide_False.
Qed.

Lemma OutPut_terminates_line_witness :
  exists hdr err log' w' calls,
    formatHeader (set_buf [] srv_log) (w_clock world0 (w_reads world0))
                 (located srv_log here).1 (located srv_log here).2 LogError
    = Some hdr
    /\ OutPut LogError ("boom 7" : bytes) here srv_log world0 = Some (err, log', w')
    /\ buf log' = buf hdr ++ terminated ("boom 7" : bytes)
    /\ w_trace w'
       = w_trace world0 ++ calls
           ++ [SysWrite (out log') (buf hdr ++ terminated ("boom 7" : bytes)) err]
    /\ (last ("boom 7" : bytes) = Some newline
        -> terminated ("boom 7" : bytes) = ("boom 7" : bytes))
    /\ (last ("boom 7" : bytes) <> Some newline
        -> terminated ("boom 7" : bytes) = ("boom 7" : bytes) ++ [newline]).
Proof.
  apply (OutPut_terminates_line LogError ("boom 7" : bytes) here srv_log world0).
  - unfold LogError. lia.
  - discriminate.
Defined.

(** ** The file rotator *)

Section Rotator.

Implicit Types (w : World) (log : ZinxLoggerCore).

Lemma closeFile_lastWriteDate log w :
  lastWriteDate (closeFile log w).1 = lastWriteDate log.
Proof.
  unfold closeFile. destruct (file log) as [fd|]; [|done].
  by destruct (os_Close fd w).
Qed.

(** Whatever the directory creation and the open returned, the slow path
    leaves the day set and the sink bound to what the open returned. *)
Lemma rotate_result yd log w :
  lastWriteDate (rotate yd log w).1 = yd
  /\ out (rotate yd log w).1 = WFile (file (rotate yd log w).1).
Proof.
  unfold rotate.
  destruct (mkdirLog _ w) as [e w1].
  destruct (Now w1) as [t w2].
  destruct (checkFileExist _ w2) as [ex w3].
  destruct (os_OpenFile _ _ w3) as [[f e4] w4].
  rewrite guarded_closeFile.
  pose proof (closeFile_lastWriteDate (set_lastWriteDate yd log) w4) as H5.
  destruct (closeFile _ w4) as [log5 w5]. simpl in *. done.
Qed.

Lemma is_current_unbound log yd : file log = None -> is_current log yd = false.
Proof.
  intros H. unfold is_current. rewrite H.
  rewrite (bool_decide_eq_false_2 (None <> None)) by (intros Hne; by apply Hne).
  apply andb_false_r.
Qed.

End Rotator.

(** C2, as stated, fails: when the directory of the log file
    cannot be created, the slow path changes the day field (from 0 to day
    101) although no file was opened and none is bound. *)
Lemma day_set_without_rotation :
  is_current srv_log 101 = false
  /\ lastWriteDate srv_log = 0
  /\ observe (Some (None, (updateOutputFile srv_log
                             (deny ("/var/log/zinx" : bytes) world0)).1,
                          (updateOutputFile srv_log
                             (deny ("/var/log/zinx" : bytes) world0)).2))
     = Some (None, WFile None, None, 101, [],
             Some (SysOpen today_file true None), []).
Proof. split; [reflexivity|]. split; [reflexivity|]. vm_compute. reflexivity. Qed.

(** C1: what the code does when the next day's file cannot be opened.
    The first line goes to today's file. The next day the open fails: the
    file of the day before is closed all the same, the sink becomes the nil
    file, the line reaches neither a file nor standard error, and [OutPut]
    returns the error of the write to the nil file. The sink stays unusable
    for the following line. *)
Theorem rotation_failure_breaks_sink :
  observe first_emit
  = Some (None, WFile (Some 3%nat), Some 3%nat, 101,
          ("<SRV>2019/04/11 11:15:33 [INFO]server.go:42: up" ++ [newline]),
          Some (SysWrite (WFile (Some 3%nat))
                  ("<SRV>2019/04/11 11:15:33 [INFO]server.go:42: up" ++ [newline])
                  None),
          [])
  /\ observe second_emit
     = Some (Some ErrInvalid, WFile None, None, 102,
             ("<SRV>2019/04/12 11:15:33 [ERROR]server.go:42: boom" ++ [newline]),
             Some (SysWrite (WFile None)
                     ("<SRV>2019/04/12 11:15:33 [ERROR]server.go:42: boom" ++ [newline])
                     (Some ErrInvalid)),
             [])
  /\ observe third_emit
     = Some (Some ErrInvalid, WFile None, None, 102,
             ("<SRV>2019/04/12 11:15:33 [ERROR]server.go:42: again" ++ [newline]),
             Some (SysWrite (WFile None)
                     ("<SRV>2019/04/12 11:15:33 [ERROR]server.go:42: again" ++ [newline])
                     (Some ErrInvalid)),
             [])
  /\ (('(_, _, w) ← third_emit; Some (map_to_list (w_files w), map_to_list (w_open w)))
      = Some ([(today_file,
                ("<SRV>2019/04/11 11:15:33 [INFO]server.go:42: up" ++ [newline]))],
              [])).
Proof. repeat split; vm_compute; reflexivity. Qed.

(** * Further properties of the logger *)

(** ** [itoa] beyond the widths the formatter uses *)

Section ItoaEdges.

(** With a width the array cannot hold, the loop runs off its front. *)
Lemma itoa_loop_overflow bp : forall u wID (b : bytes),
  Z.of_nat bp < wID < 2 ^ 63 -> itoa_loop bp u wID b = None.
Proof.
  induction bp as [|bp IH]; intros u wID b Hw; cbn [itoa_loop].
  - replace (0 <? wID) with true by (symmetry; apply Z.ltb_lt; lia).
    by rewrite orb_true_r.
  - replace (0 <? wID) with true by (symmetry; apply Z.ltb_lt; lia).
    rewrite orb_true_r, wrap_int_id by lia. apply IH. lia.
Qed.

End ItoaEdges.

Section ItoaWrap.

(** Near the least [int], [wID--] wraps around to a large positive width
    as soon as the loop has run [j] times, which it does when the number
    has more than [j] digits; from then on the loop runs off the array. *)
Lemma itoa_loop_wraps (j : nat) : forall bp u (b : bytes),
  0 <= u < 10 ^ Z.of_nat bp ->
  (bp <= 32)%nat -> (j <= 32)%nat ->
  itoa_loop bp u (- 2 ^ 63 + Z.of_nat j) b = None <-> 10 ^ Z.of_nat j <= u.
Proof.
  induction j as [|j IH]; intros bp u b Hu Hbp Hj.
  - destruct bp as [|bp]; cbn [itoa_loop].
    + simpl in Hu. assert (u = 0) as -> by lia. simpl. split; [done | lia].
    + destruct (Z.ltb_spec 0 u) as [Hpos|Hzero]; simpl.
      * replace (wrap_int (- 2 ^ 63 + Z.of_nat 0 - 1)) with (2 ^ 63 - 1)
          by reflexivity.
        rewrite itoa_loop_overflow by lia. simpl. split; [lia | done].
      * assert (u = 0) as -> by lia. simpl. split; [done | lia].
  - destruct bp as [|bp]; cbn [itoa_loop].
    + simpl in Hu. assert (u = 0) as -> by lia.
      replace (0 <? - 2 ^ 63 + Z.of_nat (S j)) with false
        by (symmetry; apply Z.ltb_ge; lia).
      simpl. split; [done|]. intros H.
      assert (0 < 10 ^ Z.of_nat (S j)) by (apply Z.pow_pos_nonneg; lia). lia.
    + replace (0 <? - 2 ^ 63 + Z.of_nat (S j)) with false
        by (symmetry; apply Z.ltb_ge; lia).
      rewrite orb_false_r.
      destruct (Z.ltb_spec 0 u) as [Hpos|Hzero].
      * rewrite wrap_int_id by lia.
        replace (- 2 ^ 63 + Z.of_nat (S j) - 1) with (- 2 ^ 63 + Z.of_nat j) by lia.
        rewrite IH; [| |lia|lia].
        -- rewrite Nat2Z.inj_succ, Z.pow_succ_r by lia.
           set (X := 10 ^ Z.of_nat j). split; intros H.
           ++ pose proof (Z.mul_div_le u 10 ltac:(lia)). lia.
           ++ apply Z.div_le_lower_bound; lia.
        -- split; [apply Z.div_pos; lia|].
           apply Z.div_lt_upper_bound; [lia|].
           rewrite Nat2Z.inj_succ, Z.pow_succ_r in Hu; lia.
      * assert (u = 0) as -> by lia. split; [done|]. intros H.
        assert (0 < 10 ^ Z.of_nat (S j)) by (apply Z.pow_pos_nonneg; lia). lia.
Qed.

End ItoaWrap.

(** X1. For every 64-bit width, [itoa] panics exactly when the width
    exceeds the 32 bytes of its array, or when the width is within 20 of
    the least [int] and the number has more digits than that distance, so
    that [wID--] wraps around to a positive width inside the loop. *)
Theorem itoa_panics_iff (buffer : bytes) (i wID : Z) :
  - 2 ^ 63 <= wID < 2 ^ 63 ->
  itoa buffer i wID = None <-> 32 < wID \/ 10 ^ (wID + 2 ^ 63) <= uint i.
Proof.
  intros Hw. pose proof (uint_range i) as Hu.
  change (10 ^ Z.of_nat 32) with (10 ^ 32) in Hu.
  destruct (Z.le_gt_cases (- 2 ^ 63 + 32) wID) as [Hmid|Hlow].
  - assert (~ 10 ^ (wID + 2 ^ 63) <= uint i) as Hno.
    { intros H. assert (10 ^ 32 <= 10 ^ (wID + 2 ^ 63))
        by (apply Z.pow_le_mono_r; lia). lia. }
    split.
    + intros Hnone. left. destruct (Z.le_gt_cases wID 32) as [Hle|]; [|lia].
      rewrite itoa_digits in Hnone by lia. done.
    + intros [Hwide|H]; [|done]. unfold itoa.
      replace (wID <=? 1) with false by (symmetry; apply Z.leb_gt; lia).
      rewrite andb_false_r, itoa_loop_overflow; [done | simpl; lia].
  - assert (exists j : nat, (j <= 32)%nat /\ wID = - 2 ^ 63 + Z.of_nat j)
      as (j & Hj & ->).
    { exists (Z.to_nat (wID + 2 ^ 63)). split; lia. }
    replace (- 2 ^ 63 + Z.of_nat j + 2 ^ 63) with (Z.of_nat j) by lia.
    pose proof (itoa_loop_wraps j 32 (uint i) (replicate 32 "000"%char)
                  Hu ltac:(lia) Hj) as Hloop.
    unfold itoa.
    replace (- 2 ^ 63 + Z.of_nat j <=? 1) with true
      by (symmetry; apply Z.leb_le; lia).
    rewrite andb_true_r.
    destruct (Z.eqb_spec (uint i) 0) as [Hz|Hnz].
    + split; [done|]. intros [H|H]; [lia|]. rewrite Hz in H.
      assert (0 < 10 ^ Z.of_nat j) by (apply Z.pow_pos_nonneg; lia). lia.
    + destruct (itoa_loop 32 (uint i) _ _) as [[bp b]|] eqn:Hrun; simpl.
      * split; [done|]. intros [H|H]; [lia|]. by apply Hloop in H.
      * split; [|done]. intros _. right. by apply Hloop.
Qed.

Lemma itoa_panics_iff_witness :
  itoa [] 5 (- 2 ^ 63) = None <-> 32 < - 2 ^ 63 \/ 10 ^ (- 2 ^ 63 + 2 ^ 63) <= uint 5.
Proof. apply (itoa_panics_iff [] 5 (- 2 ^ 63)). lia. Defined.

(** X2. [itoa] has no sign: a negative [int] is rendered as the unsigned
    64-bit number with the same bits, [i + 2^64]. *)
Theorem itoa_negative_wraps (buffer : bytes) (i wID : Z) :
  - 2 ^ 63 <= i < 0 ->
  - 2 ^ 63 + 32 <= wID <= 32 ->
  exists s,
    itoa buffer i wID = Some (buffer ++ s)
    /\ Forall is_digit s
    /\ dec_value s = i + 2 ^ 64
    /\ (19 <= length s)%nat.
Proof.
  intros Hi Hw.
  destruct (itoa_spec i wID Hw) as (s & Hs & Hdig & Hval & Hne & Hlen & Hfit).
  assert (uint i = i + 2 ^ 64) as Hu.
  { unfold uint. symmetry. apply (Z.mod_unique_pos _ _ (-1)); lia. }
  exists s. rewrite itoa_app, Hs. split; [done|]. split; [done|].
  split; [congruence|].
  destruct (decide (19 <= length s)%nat) as [|Hshort]; [done|]. exfalso.
  assert (dec_value s < 10 ^ Z.of_nat (length s)) as Hbound.
  { clear -Hdig. induction s as [|c s IH] using rev_ind; [done|].
    apply Forall_app in Hdig as [Hs Hc].
    apply (proj1 (Forall_singleton _ _)) in Hc.
    rewrite dec_value_snoc, length_app, Nat2Z.inj_add, Z.pow_add_r by lia.
    specialize (IH Hs). unfold is_digit in Hc. unfold digit_value.
    change (10 ^ Z.of_nat (length [c])) with 10.
    set (X := 10 ^ Z.of_nat (length s)) in *. lia. }
  assert (10 ^ Z.of_nat (length s) <= 10 ^ 18) as Hpow
    by (apply Z.pow_le_mono_r; lia).
  rewrite Hval, Hu in Hbound. lia.
Qed.

Lemma itoa_negative_wraps_witness :
  exists s,
    itoa [] (-1) 2 = Some ([] ++ s)
    /\ Forall is_digit s
    /\ dec_value s = -1 + 2 ^ 64
    /\ (19 <= length s)%nat.
Proof. apply (itoa_negative_wraps [] (-1) 2); lia. Defined.

(** ** The short file name, continued *)

Section ShortFileShape.

Implicit Types path : bytes.

(** The scan either keeps the path, which then has no separator between
    index 1 and [i], or drops everything up to the last separator at or
    below [i]. *)
Lemma short_scan_cases path i :
  (short_scan path i = path
   /\ forall j, (1 <= j <= i)%nat -> path !! j <> Some slash)
  \/ (exists k, (1 <= k <= i)%nat
                /\ path !! k = Some slash
                /\ (forall j, (k < j <= i)%nat -> path !! j <> Some slash)
                /\ short_scan path i = drop (S k) path).
Proof.
  induction i as [|i IH]; simpl.
  - left. split; [done|]. intros j Hj. lia.
  - case_decide as Hi.
    + right. exists (S i). split; [lia|]. split; [done|].
      split; [intros j Hj; lia | by rewrite Nat.add_1_r].
    + destruct IH as [[Heq Hno] | (k & Hk & Hat & Hno & Heq)].
      * left. split; [done|]. intros j Hj.
        destruct (decide (j = S i)) as [->|]; [done|]. apply Hno. lia.
      * right. exists k. split; [lia|]. split; [done|]. split; [|done].
        intros j Hj. destruct (decide (j = S i)) as [->|]; [done|].
        apply Hno. lia.
Qed.

Lemma shortFile_cases path :
  (shortFile path = path
   /\ forall j, (1 <= j)%nat -> path !! j <> Some slash)
  \/ (exists k, (1 <= k)%nat
                /\ path !! k = Some slash
                /\ (forall j, (k < j)%nat -> path !! j <> Some slash)
                /\ shortFile path = drop (S k) path).
Proof.
  assert (forall j, (length path - 1 < j)%nat -> path !! j <> Some slash) as Hend.
  { intros j Hj Hat. apply lookup_lt_Some in Hat. lia. }
  unfold shortFile.
  destruct (short_scan_cases path (length path - 1))
    as [[Heq Hno] | (k & Hk & Hat & Hno & Heq)].
  - left. split; [done|]. intros j Hj.
    destruct (decide (j <= length path - 1)%nat); [apply Hno | apply Hend]; lia.
  - right. exists k. split; [lia|]. split; [done|]. split; [|done].
    intros j Hj.
    destruct (decide (j <= length path - 1)%nat); [apply Hno | apply Hend]; lia.
Qed.

End ShortFileShape.

(** X3. The short file name is a suffix of the path, holds no separator
    after its first byte, and shortening it again changes nothing. *)
Theorem shortFile_shape (path : bytes) :
  (exists dir, path = dir ++ shortFile path)
  /\ (forall j, (1 <= j)%nat -> shortFile path !! j <> Some slash)
  /\ shortFile (shortFile path) = shortFile path.
Proof.
  assert (forall j, (1 <= j)%nat -> shortFile path !! j <> Some slash) as Hclean.
  { destruct (shortFile_cases path) as [[-> Hno] | (k & Hk & Hat & Hno & ->)].
    - done.
    - intros j Hj. rewrite lookup_drop. apply Hno. lia. }
  split; [|split; [done|]].
  - destruct (shortFile_cases path) as [[-> _] | (k & _ & _ & _ & ->)].
    + by exists [].
    + exists (take (S k) path). by rewrite take_drop.
  - apply short_scan_none. intros j Hj. apply Hclean. lia.
Qed.

(** ** When the formatter panics *)

(** X4. [formatHeader], and with it the exported [OutPut], panics exactly
    when a time bit and the level bit are set and the severity is not one
    of the six of the table; in every other case [OutPut] returns. *)
Theorem formatHeader_panics_iff (level : Z) (s : bytes)
    (caller : option (bytes * Z)) (log : ZinxLoggerCore) (w : World)
    (t : Time) (path : bytes) (line : Z) :
  (formatHeader log t path line level = None
   <-> has (flag log) time_bits = true /\ has (flag log) BitLevel = true
       /\ ~ 0 <= level <= 5)
  /\ (OutPut level s caller log w = None
      <-> has (flag log) time_bits = true /\ has (flag log) BitLevel = true
          /\ ~ 0 <= level <= 5).
Proof.
  assert (forall l t p n,
            flag l = flag log ->
            formatHeader l t p n level = None
            <-> has (flag log) time_bits = true /\ has (flag log) BitLevel = true
                /\ ~ 0 <= level <= 5) as Hfmt.
  { intros l t' p n Hflag. rewrite formatHeader_fields, Hflag. unfold time_bits.
    destruct (has (flag log) (Z.lor (Z.lor BitDate BitTime) BitMicroSeconds));
      [|split; [done | intros (? & _); done]].
    destruct (has (flag log) BitLevel); simpl;
      [|split; [done | intros (_ & ? & _); done]].
    destruct (decide (0 <= level <= 5)) as [Hin|Hout].
    - destruct (level_tag_in_range level Hin) as [tag ->]. simpl.
      split; [done | intros (_ & _ & ?); done].
    - assert (level_tag level = None) as ->; [|done].
      unfold level_tag. destruct (level <? 0) eqn:Hneg; [done|].
      apply Z.ltb_ge in Hneg. apply lookup_ge_None. simpl. lia. }
  split; [by apply Hfmt|].
  rewrite <- (Hfmt (set_buf [] log) (w_clock w (w_reads w))
                   (located log caller).1 (located log caller).2 eq_refl).
  split.
  - intros Hnone.
    destruct (formatHeader (set_buf [] log) (w_clock w (w_reads w))
                (located log caller).1 (located log caller).2 level)
      as [hdr|] eqn:Hhdr; [|done].
    destruct (OutPut_emits level s caller log w hdr Hhdr)
      as (err & log' & w' & calls & Hout & _). congruence.
  - intros Hnone. unfold OutPut, Now.
    destruct (located log caller) as [p n]. simpl in Hnone.
    by rewrite Hnone.
Qed.

(** ** The width of the stamp *)

Section Stamp.

Lemma digits_width i wID :
  1 <= wID <= 18 -> 0 <= i < 10 ^ wID -> length (digits i wID) = Z.to_nat wID.
Proof.
  intros Hw Hi. unfold digits.
  destruct (itoa_spec i wID) as (s & -> & _ & _ & _ & _ & Hfit); [lia|].
  simpl. assert (uint i = i) as Hu.
  { unfold uint. apply Z.mod_small. split; [lia|].
    apply Z.lt_le_trans with (10 ^ wID); [lia|].
    apply Z.le_trans with (10 ^ 18); [apply Z.pow_le_mono_r; lia | lia]. }
  rewrite Hu in Hfit. lia.
Qed.

End Stamp.

(** X5. For a calendar time with a four-digit year the stamp has a fixed
    width: the date block appends 11 bytes, the clock block 9 bytes, or 16
    with microseconds. *)
Theorem stamp_has_fixed_width (f : Z) (t : Time) (b : bytes) :
  valid_time t ->
  (exists d, header_date t b = Some (b ++ d) /\ length d = 11%nat)
  /\ (exists c, header_clock f t b = Some (b ++ c)
                /\ length c = if has f BitMicroSeconds then 16%nat else 9%nat).
Proof.
  intros (Hy & Hmo & Hd & Hh & Hmi & Hs & Hn).
  rewrite header_date_eq, header_clock_eq. split; eexists; (split; [done|]).
  - rewrite !length_app, !digits_width; simpl; lia.
  - assert (0 <= tNanosecond t / 1000 < 10 ^ 6) as Hus.
    { split; [apply Z.div_pos; lia|]. apply Z.div_lt_upper_bound; lia. }
    destruct (has f BitMicroSeconds);
      rewrite !length_app, !digits_width; simpl; lia.
Qed.

Lemma stamp_has_fixed_width_witness :
  (exists d, header_date noon ("<SRV>" : bytes) = Some (("<SRV>" : bytes) ++ d)
             /\ length d = 11%nat)
  /\ (exists c, header_clock BitMicroSeconds noon [] = Some ([] ++ c)
                /\ length c = if has BitMicroSeconds BitMicroSeconds
                              then 16%nat else 9%nat).
Proof.
  split.
  - apply (stamp_has_fixed_width 0 noon ("<SRV>" : bytes)).
    unfold valid_time. simpl. lia.
  - apply (stamp_has_fixed_width BitMicroSeconds noon []).
    unfold valid_time. simpl. lia.
Defined.

(** ** Messages that bring their own terminator *)

Section Messages.

Lemma last_Sprintln (v : list bytes) : last (Sprintln v) = Some newline.
Proof.
  unfold Sprintln. destruct v as [|x r]; [done|].
  by rewrite app_assoc, last_snoc.
Qed.

Lemma needs_newline_terminated (s : bytes) :
  last s = Some newline -> needs_newline s = false.
Proof.
  intros Hlast. destruct (needs_newline s) eqn:Hn; [|done].
  apply needs_newline_iff in Hn as [_ Hn]. done.
Qed.

(** A call that is not stopped by the gate formats its header, hands the
    line to the sink and ends the way its method does. *)
Lemma run_emits (c : Call) caller (log : ZinxLoggerCore) (w : World) :
  gated c && verifyLogIsolation log (severity c) = false ->
  exists hdr err log' w' calls,
    formatHeader (set_buf [] log) (w_clock w (w_reads w))
                 (located log caller).1 (located log caller).2 (severity c)
    = Some hdr
    /\ run c caller log w = Some (ending c, log', w')
    /\ buf log' = line_of (buf hdr) (message c)
    /\ w_trace w' = w_trace w ++ calls ++ [SysWrite (out log') (buf log') err].
Proof.
  intros Hopen.
  destruct (OutPut_total (severity c) (message c) caller log w
              (severity_in_table c))
    as (hdr & err & log' & w' & calls & Hhdr & Hout & Hbuf & Htr).
  exists hdr, err, log', w', calls. repeat split; try done.
  by rewrite run_unfold, Hopen, Hout.
Qed.

End Messages.

(** X6. The methods without format string hand [OutPut] a message that
    [Sprintln] has already terminated, so a call that passes the gate
    writes the header followed by the operands, separated by single spaces,
    and exactly one line terminator. *)
Theorem list_methods_write_one_line (c : Call) (v : list bytes)
    (caller : option (bytes * Z)) (log : ZinxLoggerCore) (w : World) :
  c = CDebug v \/ c = CInfo v \/ c = CWarn v \/ c = CError v
    \/ c = CPanic v \/ c = CFatal v ->
  ~ isolationLevel log > severity c ->
  exists hdr err log' w' calls,
    formatHeader (set_buf [] log) (w_clock w (w_reads w))
                 (located log caller).1 (located log caller).2 (severity c)
    = Some hdr
    /\ run c caller log w = Some (ending c, log', w')
    /\ buf log' = buf hdr ++ Sprintln v
    /\ last (buf log') = Some newline
    /\ w_trace w' = w_trace w ++ calls ++ [SysWrite (out log') (buf log') err].
Proof.
  intros Hc Hpass.
  assert (gated c = true /\ message c = Sprintln v) as [Hgated Hmsg]
    by (destruct Hc as [->|[->|[->|[->|[->| ->]]]]]; done).
  destruct (run_emits c caller log w)
    as (hdr & err & log' & w' & calls & Hhdr & Hrun & Hbuf & Htr).
  { rewrite Hgated. simpl.
    destruct (verifyLogIsolation log (severity c)) eqn:Hv; [|done].
    apply verifyLogIsolation_gt in Hv. done. }
  exists hdr, err, log', w', calls.
  rewrite Hmsg in Hbuf. unfold line_of in Hbuf.
  rewrite needs_newline_terminated, app_nil_r in Hbuf by apply last_Sprintln.
  repeat split; try done.
  rewrite Hbuf, last_app, last_Sprintln. done.
Qed.

Lemma list_methods_write_one_line_witness :
  exists hdr err log' w' calls,
    formatHeader (set_buf [] srv_log) (w_clock world0 (w_reads world0))
                 (located srv_log here).1 (located srv_log here).2
                 (severity (CError [("boom" : bytes); ("7" : bytes)]))
    = Some hdr
    /\ run (CError [("boom" : bytes); ("7" : bytes)]) here srv_log world0
       = Some (ending (CError [("boom" : bytes); ("7" : bytes)]), log', w')
    /\ buf log' = buf hdr ++ Sprintln [("boom" : bytes); ("7" : bytes)]
    /\ last (buf log') = Some newline
    /\ w_trace w' = w_trace world0 ++ calls ++ [SysWrite (out log') (buf log') err].
Proof.
  apply (list_methods_write_one_line
           (CError [("boom" : bytes); ("7" : bytes)])
           [("boom" : bytes); ("7" : bytes)] here srv_log world0).
  - right. right. right. left. reflexivity.
  - cbv. discriminate.
Defined.

(** ** What an emit leaves alone *)

Section Frame.

Implicit Types (w : World) (log : ZinxLoggerCore).

Lemma closeFile_config log w : config (closeFile log w).1 = config log.
Proof.
  unfold closeFile. destruct (file log) as [fd|]; [|done].
  by destruct (os_Close fd w).
Qed.

Lemma rotate_config yd log w : config (rotate yd log w).1 = config log.
Proof.
  unfold rotate.
  destruct (mkdirLog _ w) as [e w1].
  destruct (Now w1) as [t w2].
  destruct (checkFileExist _ w2) as [ex w3].
  destruct (os_OpenFile _ _ w3) as [[f e4] w4].
  rewrite guarded_closeFile.
  pose proof (closeFile_config (set_lastWriteDate yd log) w4) as H5.
  by destruct (closeFile _ w4) as [log5 w5].
Qed.

Lemma updateOutputFile_config log w :
  config (updateOutputFile log w).1 = config log.
Proof.
  unfold updateOutputFile. simpl.
  destruct (is_current log _); [done|]. apply rotate_config.
Qed.

Lemma OutPut_config level s caller log w err log' w' :
  OutPut level s caller log w = Some (err, log', w') -> config log' = config log.
Proof.
  unfold OutPut, Now. destruct (located log caller) as [path line].
  destruct (formatHeader (set_buf [] log) _ path line level) as [hdr|] eqn:Hhdr;
    [|done].
  apply formatHeader_frame in Hhdr as [h ->]. simpl.
  set (log1 := if needs_newline s then _ else _).
  assert (config log1 = config log) as Hcfg
    by (subst log1; by destruct (needs_newline s)).
  pose proof (updateOutputFile_config log1 (tick w)) as Hkeep.
  destruct (updateOutputFile log1 (tick w)) as [log2 w2].
  destruct (Write (out log2) (buf log2) w2) as [e w3].
  intros [= _ <- _]. simpl in Hkeep. congruence.
Qed.

End Frame.

(** X8. An emit never changes the configuration of the logger: prefix,
    flags, isolation level, call depth and rotation target are after
    [OutPut] what they were before; only the buffer, the sink, the bound
    file and the rotation day can differ. *)
Theorem OutPut_keeps_config (level : Z) (s : bytes) (caller : option (bytes * Z))
    (log : ZinxLoggerCore) (w : World) :
  0 <= level <= 5 ->
  exists err log' w',
    OutPut level s caller log w = Some (err, log', w')
    /\ prefix log' = prefix log /\ flag log' = flag log
    /\ isolationLevel log' = isolationLevel log
    /\ calldDepth log' = calldDepth log
    /\ fileName log' = fileName log /\ fileDir log' = fileDir log.
Proof.
  intros Hlevel.
  destruct (OutPut_total level s caller log w Hlevel)
    as (hdr & err & log' & w' & calls & _ & Hout & _).
  exists err, log', w'. split; [done|].
  apply OutPut_config in Hout.
  unfold config in Hout. injection Hout as -> -> -> -> -> ->. done.
Qed.

Lemma OutPut_keeps_config_witness :
  exists err log' w',
    OutPut LogWarn ("slow" : bytes) here (SetLogLevel LogWarn srv_log) world0
    = Some (err, log', w')
    /\ prefix log' = prefix (SetLogLevel LogWarn srv_log)
    /\ flag log' = flag (SetLogLevel LogWarn srv_log)
    /\ isolationLevel log' = isolationLevel (SetLogLevel LogWarn srv_log)
    /\ calldDepth log' = calldDepth (SetLogLevel LogWarn srv_log)
    /\ fileName log' = fileName (SetLogLevel LogWarn srv_log)
    /\ fileDir log' = fileDir (SetLogLevel LogWarn srv_log).
Proof.
  apply (OutPut_keeps_config LogWarn ("slow" : bytes) here
           (SetLogLevel LogWarn srv_log) world0).
  unfold LogWarn. lia.
Defined.

(** X7. [Stack] does not consult the isolation level: whatever it is, the
    call writes, at severity ERROR, the header followed by the message, a
    line terminator, the stack dump and one more terminator, and returns. *)
Theorem Stack_ignores_isolation (s dump : bytes) (caller : option (bytes * Z))
    (log : ZinxLoggerCore) (w : World) :
  exists hdr err log' w' calls,
    formatHeader (set_buf [] log) (w_clock w (w_reads w))
                 (located log caller).1 (located log caller).2 LogError
    = Some hdr
    /\ Stack s dump caller log w = Some (Returned, log', w')
    /\ buf log' = buf hdr ++ s ++ [newline] ++ dump ++ [newline]
    /\ isolationLevel log' = isolationLevel log
    /\ w_trace w' = w_trace w ++ calls ++ [SysWrite (out log') (buf log') err].
Proof.
  destruct (run_emits (CStack s dump) caller log w eq_refl)
    as (hdr & err & log' & w' & calls & Hhdr & Hrun & Hbuf & Htr).
  exists hdr, err, log', w', calls.
  split; [done|]. split; [done|].
  unfold line_of in Hbuf. simpl message in Hbuf.
  rewrite needs_newline_terminated, app_nil_r in Hbuf by apply last_snoc.
  split; [by rewrite Hbuf, <- !app_assoc|]. split; [|done].
  simpl in Hrun. unfold Stack in Hrun.
  destruct (OutPut LogError _ caller log w) as [[[e l] w0]|] eqn:Hout; [|done].
  simpl in Hrun. injection Hrun as -> ->.
  apply OutPut_config in Hout. unfold config in Hout. by injection Hout.
Qed.

(** ** What the rotator does to the world *)

Section RotatorIO.

Implicit Types (w : World) (log : ZinxLoggerCore).

Lemma mkdirLog_io d w :
  store (mkdirLog d w).2 = store w
  /\ w_clock (mkdirLog d w).2 = w_clock w
  /\ w_reads (mkdirLog d w).2 = w_reads w
  /\ exists mk, (mk = [] \/ mk = [SysMkdirAll d])
                /\ w_trace (mkdirLog d w).2 = w_trace w ++ SysStat d :: mk.
Proof.
  unfold mkdirLog, os_Stat, os_MkdirAll.
  repeat case_decide; simpl; repeat split; try done;
    first [ exists []; split; [by left | done]
          | exists [SysMkdirAll d]; split; [by right | by rewrite <- app_assoc] ].
Qed.

Lemma os_OpenFile_io p c w :
  w_trace (os_OpenFile p c w).2 = w_trace w ++ [SysOpen p c (os_OpenFile p c w).1.1]
  /\ w_stderr (os_OpenFile p c w).2 = w_stderr w
  /\ w_full (os_OpenFile p c w).2 = w_full w
  /\ match (os_OpenFile p c w).1.1 with
     | None => w_files (os_OpenFile p c w).2 = w_files w
               /\ w_open (os_OpenFile p c w).2 = w_open w
               /\ w_next (os_OpenFile p c w).2 = w_next w
     | Some fd => fd = w_next w
                  /\ w_next (os_OpenFile p c w).2 = S fd
                  /\ w_open (os_OpenFile p c w).2 = <[fd := p]> (w_open w)
                  /\ w_files (os_OpenFile p c w).2
                     = <[p := default [] (w_files w !! p)]> (w_files w)
     end.
Proof.
  unfold os_OpenFile.
  destruct (decide (p ∈ w_denied w)); [done|].
  destruct (decide (is_Some (w_files w !! p))) as [[x Hx]|Hnew]; simpl.
  - repeat split. by rewrite Hx, insert_id.
  - destruct c; simpl; [|done].
    destruct (parent_exists p w); simpl; [|done].
    repeat split. destruct (w_files w !! p) eqn:Hp; [|done].
    exfalso. apply Hnew. eauto.
Qed.

Lemma closeFile_io log w :
  file (closeFile log w).1 = None
  /\ w_trace (closeFile log w).2 = w_trace w ++ close_call (file log)
  /\ w_open (closeFile log w).2 = without (file log) (w_open w)
  /\ w_files (closeFile log w).2 = w_files w
  /\ w_next (closeFile log w).2 = w_next w
  /\ w_stderr (closeFile log w).2 = w_stderr w
  /\ w_full (closeFile log w).2 = w_full w.
Proof.
  unfold closeFile, os_Close, close_call, without.
  destruct (file log) as [fd|] eqn:Hfile; simpl.
  - destruct (w_open w !! fd) eqn:Hfd; simpl; repeat split.
    by rewrite delete_id.
  - rewrite app_nil_r. done.
Qed.

(** The slow path, call by call: one look-up of the directory, its
    creation when it is missing, one look-up and one open of the daily
    file, and the close of the previous file. An open that succeeds takes
    the next descriptor and keeps what the file already holds. *)
Lemma rotate_io yd log w :
  let path := fileDir log ++ ("/" : bytes) ++ fileName log ++ ("." : bytes)
                ++ format_20060102 (w_clock w (w_reads w)) in
  let log' := (rotate yd log w).1 in
  let w' := (rotate yd log w).2 in
  lastWriteDate log' = yd
  /\ out log' = WFile (file log')
  /\ buf log' = buf log
  /\ w_stderr w' = w_stderr w
  /\ w_full w' = w_full w
  /\ (exists mk create,
        (mk = [] \/ mk = [SysMkdirAll (fileDir log)])
        /\ w_trace w'
           = w_trace w ++ SysStat (fileDir log) :: mk
               ++ [SysStat path; SysOpen path create (file log')]
               ++ close_call (file log))
  /\ match file log' with
     | None => w_files w' = w_files w
               /\ w_next w' = w_next w
               /\ w_open w' = without (file log) (w_open w)
     | Some fd => fd = w_next w
                  /\ w_next w' = S fd
                  /\ w_files w' = <[path := default [] (w_files w !! path)]> (w_files w)
                  /\ w_open w' = without (file log) (<[fd := path]> (w_open w))
     end.
Proof.
  intros path log' w'. subst log' w'. unfold rotate.
  destruct (mkdirLog_io (fileDir log) w)
    as (Hst1 & Hck1 & Hrd1 & mk & Hmk & Htr1).
  change (fileDir (set_lastWriteDate yd log)) with (fileDir log).
  change (fileName (set_lastWriteDate yd log)) with (fileName log).
  destruct (mkdirLog (fileDir log) w) as [e w1]. simpl in Hst1, Hck1, Hrd1, Htr1.
  unfold store in Hst1. injection Hst1 as Hf1 Ho1 Hn1 He1 Hu1.
  unfold Now. rewrite Hck1, Hrd1. fold path.
  unfold checkFileExist, os_Stat.
  set (w3 := log_call (SysStat path) (tick w1)).
  set (create := negb (negb (os_IsNotExist _))).
  destruct (os_OpenFile_io path create w3) as (Htr4 & He4 & Hu4 & Hopen).
  destruct (os_OpenFile path create w3) as [[f e4] w4]. simpl in Htr4, He4, Hu4, Hopen.
  rewrite guarded_closeFile.
  destruct (closeFile_io (set_lastWriteDate yd log) w4)
    as (_ & Htr5 & Ho5 & Hf5 & Hn5 & He5 & Hu5).
  pose proof (closeFile_lastWriteDate (set_lastWriteDate yd log) w4) as Hd5.
  pose proof (closeFile_buf (set_lastWriteDate yd log) w4) as Hb5.
  change (file (set_lastWriteDate yd log)) with (file log) in *.
  destruct (closeFile (set_lastWriteDate yd log) w4) as [log5 w5].
  simpl in *.
  split; [done|]. split; [done|]. split; [done|].
  split; [congruence|]. split; [congruence|]. split.
  { exists mk, create. split; [done|].
    rewrite Htr5, Htr4. subst w3. simpl. rewrite Htr1, <- ?app_assoc. simpl.
    by rewrite <- ?app_assoc. }
  destruct f as [fd|].
  - destruct Hopen as (-> & Hn4 & Ho4 & Hf4). subst w3. simpl in *.
    repeat split; congruence.
  - destruct Hopen as (Hf4 & Ho4 & Hn4). subst w3. simpl in *.
    repeat split; congruence.
Qed.

End RotatorIO.

(** C2, amended. The fast path, taken exactly when the day field already
    holds the current day of the year and a file is bound, leaves the
    logger as it is and makes no system call. Every execution of the slow
    path leaves the day field set to the current day of the year, whatever
    the look-ups, the creation of the directory and the open of the new
    day's file returned: the field is not kept back until the rotation has
    completed. *)
Theorem updateOutputFile_sets_day (log : ZinxLoggerCore) (w : World) :
  let yearDay := tYearDay (w_clock w (w_reads w)) in
  let log' := (updateOutputFile log w).1 in
  let w' := (updateOutputFile log w).2 in
  (lastWriteDate log = yearDay /\ file log <> None ->
   log' = log /\ w_trace w' = w_trace w)
  /\ (~ (lastWriteDate log = yearDay /\ file log <> None) ->
      lastWriteDate log' = yearDay
      /\ exists mk create res,
           (mk = [] \/ mk = [SysMkdirAll (fileDir log)])
           /\ w_trace w'
              = w_trace w ++ SysStat (fileDir log) :: mk
                  ++ [SysStat (daily_file log w);
                      SysOpen (daily_file log w) create res]
                  ++ close_call (file log)).
Proof.
  intros yearDay log' w'. subst yearDay log' w'.
  assert (is_current log (tYearDay (w_clock w (w_reads w))) = true
          <-> lastWriteDate log = tYearDay (w_clock w (w_reads w))
              /\ file log <> None) as Hiff.
  { unfold is_current.
    by rewrite andb_true_iff, !bool_decide_eq_true. }
  unfold updateOutputFile. simpl. split.
  - intros Hfast. apply Hiff in Hfast. by rewrite Hfast.
  - intros Hslow.
    destruct (is_current log _) eqn:Hcur; [exfalso; by apply Hslow, Hiff|].
    destruct (rotate_io (tYearDay (w_clock w (w_reads w))) log (tick w))
      as (Hday & _ & _ & _ & _ & (mk & create & Hmk & Htr) & _).
    split; [done|]. exists mk, create. eexists. split; [done | exact Htr].
Qed.

Lemma updateOutputFile_sets_day_witness :
  lastWriteDate (updateOutputFile srv_log (deny ("/var/log/zinx" : bytes) world0)).1
  = tYearDay (w_clock (deny ("/var/log/zinx" : bytes) world0)
                      (w_reads (deny ("/var/log/zinx" : bytes) world0)))
  /\ exists mk create res,
       (mk = [] \/ mk = [SysMkdirAll (fileDir srv_log)])
       /\ w_trace (updateOutputFile srv_log (deny ("/var/log/zinx" : bytes) world0)).2
          = w_trace (deny ("/var/log/zinx" : bytes) world0)
              ++ SysStat (fileDir srv_log) :: mk
              ++ [SysStat (daily_file srv_log (deny ("/var/log/zinx" : bytes) world0));
                  SysOpen (daily_file srv_log (deny ("/var/log/zinx" : bytes) world0))
                          create res]
              ++ close_call (file srv_log).
Proof.
  apply (updateOutputFile_sets_day srv_log (deny ("/var/log/zinx" : bytes) world0)).
  intros [Hday _]. discriminate Hday.
Defined.

(** X9. After a check that left a file bound, a further check on the same
    day is the fast path: it makes no system call and leaves the logger as
    it is, so a day's file is opened once. *)
Theorem updateOutputFile_same_day_noop (log : ZinxLoggerCore) (w : World) :
  let log1 := (updateOutputFile log w).1 in
  let w1 := (updateOutputFile log w).2 in
  file log1 <> None ->
  tYearDay (w_clock w1 (w_reads w1)) = tYearDay (w_clock w (w_reads w)) ->
  updateOutputFile log1 w1 = (log1, tick w1)
  /\ w_trace (updateOutputFile log1 w1).2 = w_trace w1.
Proof.
  intros log1 w1 Hbound Hday.
  assert (lastWriteDate log1 = tYearDay (w_clock w (w_reads w))) as Hlast.
  { subst log1. unfold updateOutputFile. simpl.
    destruct (is_current log _) eqn:Hcur; [|apply rotate_result].
    simpl. unfold is_current in Hcur.
    apply andb_true_iff in Hcur as [Hcur _].
    by apply bool_decide_eq_true in Hcur. }
  assert (updateOutputFile log1 w1 = (log1, tick w1)) as Heq.
  { unfold updateOutputFile at 1. simpl. rewrite Hday.
    assert (is_current log1 (tYearDay (w_clock w (w_reads w))) = true) as ->; [|done].
    unfold is_current. apply andb_true_iff.
    split; by apply bool_decide_eq_true. }
  split; [done|]. by rewrite Heq.
Qed.

Lemma updateOutputFile_same_day_noop_witness :
  updateOutputFile (updateOutputFile srv_log world0).1 (updateOutputFile srv_log world0).2
  = ((updateOutputFile srv_log world0).1, tick (updateOutputFile srv_log world0).2)
  /\ w_trace (updateOutputFile (updateOutputFile srv_log world0).1
                               (updateOutputFile srv_log world0).2).2
     = w_trace (updateOutputFile srv_log world0).2.
Proof.
  apply (updateOutputFile_same_day_noop srv_log world0).
  - vm_compute. discriminate.
  - reflexivity.
Defined.

(** X10. On its slow path the rotator makes these system calls and no
    other, in this order: a look-up of the directory, its creation when
    the look-up failed, a look-up and one open of the file
    [dir/name.YYYYMMDD], and last the close of the file bound before. The
    date in the name is read from the clock after the day of the year
    was. *)
Theorem rotation_system_calls (log : ZinxLoggerCore) (w : World) :
  is_current log (tYearDay (w_clock w (w_reads w))) = false ->
  exists mk create,
    (mk = [] \/ mk = [SysMkdirAll (fileDir log)])
    /\ w_trace (updateOutputFile log w).2
       = w_trace w ++ SysStat (fileDir log) :: mk
           ++ [SysStat (daily_file log w);
               SysOpen (daily_file log w) create (file (updateOutputFile log w).1)]
           ++ close_call (file log).
Proof.
  intros Hcur. unfold updateOutputFile. simpl. rewrite Hcur.
  destruct (rotate_io (tYearDay (w_clock w (w_reads w))) log (tick w))
    as (_ & _ & _ & _ & _ & (mk & create & Hmk & Htr) & _).
  exists mk, create. split; [done|]. exact Htr.
Qed.

Lemma rotation_system_calls_witness :
  exists mk create,
    (mk = [] \/ mk = [SysMkdirAll (fileDir srv_log)])
    /\ w_trace (updateOutputFile srv_log world0).2
       = w_trace world0 ++ SysStat (fileDir srv_log) :: mk
           ++ [SysStat (daily_file srv_log world0);
               SysOpen (daily_file srv_log world0) create
                       (file (updateOutputFile srv_log world0).1)]
           ++ close_call (file srv_log).
Proof. apply (rotation_system_calls srv_log world0). reflexivity. Defined.

(** ** The sink across emits *)

Section Sink.

Implicit Types (w : World) (log : ZinxLoggerCore).

(** [OutPut], once the header is there, is the rotator's check followed
    by one [Write] of the buffer. *)
Lemma OutPut_steps level s caller log w hdr :
  formatHeader (set_buf [] log) (w_clock w (w_reads w))
               (located log caller).1 (located log caller).2 level = Some hdr ->
  exists h,
    let log1 := set_buf (line_of h s) log in
    let r := updateOutputFile log1 (tick w) in
    let x := Write (out r.1) (buf r.1) r.2 in
    buf hdr = h /\ OutPut level s caller log w = Some (x.1, r.1, x.2).
Proof.
  intros Hhdr. unfold OutPut, Now.
  destruct (located log caller) as [path line]. simpl in Hhdr.
  rewrite Hhdr. simpl.
  apply formatHeader_frame in Hhdr as [h ->]. simpl.
  exists h. split; [done|].
  assert ((if needs_newline s
           then set_buf ((h ++ s) ++ [newline]) (set_buf (h ++ s) (set_buf h (set_buf [] log)))
           else set_buf (h ++ s) (set_buf h (set_buf [] log)))
          = set_buf (line_of h s) log) as ->.
  { unfold line_of, set_buf. simpl.
    destruct (needs_newline s); simpl; by rewrite <- ?app_assoc, ?app_nil_r. }
  destruct (updateOutputFile _ (tick w)) as [log2 w2]. simpl.
  by destruct (Write (out log2) (buf log2) w2).
Qed.

(** A write to an open descriptor appends to its file, or fails on a full
    device; a write to the nil file fails. *)
Lemma Write_file_io fd data w p :
  w_open w !! fd = Some p ->
  (Write (WFile (Some fd)) data w).1
  = (if w_full w then Some ErrNoSpace else None)
  /\ w_files (Write (WFile (Some fd)) data w).2
     = (if w_full w then w_files w
        else <[p := default [] (w_files w !! p) ++ data]> (w_files w))
  /\ w_open (Write (WFile (Some fd)) data w).2 = w_open w
  /\ w_next (Write (WFile (Some fd)) data w).2 = w_next w
  /\ w_stderr (Write (WFile (Some fd)) data w).2 = w_stderr w.
Proof. intros Hfd. unfold Write. rewrite Hfd. by destruct (w_full w). Qed.

Lemma Write_nil_io data w :
  (Write (WFile None) data w).1 = Some ErrInvalid
  /\ w_files (Write (WFile None) data w).2 = w_files w
  /\ w_open (Write (WFile None) data w).2 = w_open w
  /\ w_next (Write (WFile None) data w).2 = w_next w
  /\ w_stderr (Write (WFile None) data w).2 = w_stderr w.
Proof. done. Qed.

Lemma lookup_without (old : option nat) (o : gmap nat bytes) fd q :
  without old o !! fd = Some q -> o !! fd = Some q.
Proof.
  unfold without. destruct old as [x|]; [|done].
  rewrite lookup_delete_Some. tauto.
Qed.

(** What the rotator's check guarantees for the write that follows, from
    a state where the bound file is open: the sink is the bound file, it
    is open, and the files hold what they held (the daily file may have
    been created empty). *)
Lemma updateOutputFile_sink log w :
  sink_ok log w ->
  let log' := (updateOutputFile log w).1 in
  let w' := (updateOutputFile log w).2 in
  sink_ok log' w'
  /\ out log' = WFile (file log')
  /\ buf log' = buf log
  /\ w_stderr w' = w_stderr w
  /\ w_full w' = w_full w
  /\ match file log' with
     | None => w_files w' = w_files w
     | Some fd =>
         exists p, w_open w' !! fd = Some p
                   /\ (w_files w' = w_files w
                       \/ w_files w' = <[p := default [] (w_files w !! p)]> (w_files w))
     end.
Proof.
  intros [Hfresh Hbound] log' w'. subst log' w'.
  unfold updateOutputFile. simpl.
  destruct (is_current log _) eqn:Hcur; simpl.
  - unfold is_current in Hcur. apply andb_true_iff in Hcur as [_ Hfile].
    apply bool_decide_eq_true in Hfile.
    destruct (file log) as [fd|] eqn:Hfd; [|done].
    destruct (Hbound fd Hfd) as [[p Hp] Hout].
    split; [split; [exact Hfresh | exact Hbound]|].
    split; [done|]. split; [done|]. split; [done|]. split; [done|].
    exists p. split; [done | by left].
  - destruct (rotate_io (tYearDay (w_clock w (w_reads w))) log (tick w))
      as (_ & Hout & Hbuf & Herr & Hfull & _ & Hopen).
    set (r := rotate (tYearDay (w_clock w (w_reads w))) log (tick w)) in *.
    split; [|split; [done|]; split; [done|]; split; [done|]; split; [done|]].
    + destruct (file r.1) as [fd'|] eqn:Hf'.
      * destruct Hopen as (-> & Hnext & _ & Hop). simpl in Hnext, Hop.
        assert (forall old, file log = Some old -> (old < w_next w)%nat) as Hold.
        { intros old Ho. destruct (Hbound old Ho) as [[q Hq] _]. eauto. }
        split.
        -- intros fd q. rewrite Hop, Hnext. intros H.
           apply lookup_without, lookup_insert_Some in H as [[<- _] | [_ H]];
             [lia | apply Hfresh in H; lia].
        -- unfold bound_open. intros fd Hfd. simpl in Hf', Hout.
           assert (fd = w_next w) as -> by congruence.
           split; [|done].
           rewrite Hop. unfold without.
           destruct (file log) as [old|] eqn:Ho.
           ++ specialize (Hold old eq_refl).
              rewrite lookup_delete_ne, lookup_insert_eq by lia. eauto.
           ++ rewrite lookup_insert_eq. eauto.
      * destruct Hopen as (_ & Hnext & Hop). simpl in Hnext, Hop. split.
        -- intros fd q. rewrite Hop, Hnext. intros H.
           apply lookup_without in H. eauto.
        -- unfold bound_open. intros fd Hfd. congruence.
    + destruct (file r.1) as [fd'|] eqn:Hf'.
      * destruct Hopen as (-> & Hnext & Hfiles & Hop). simpl in *.
        eexists. split; [|right; exact Hfiles].
        rewrite Hop. unfold without.
        destruct (file log) as [old|] eqn:Ho.
        -- destruct (Hbound old Ho) as [[q Hq] _]. apply Hfresh in Hq.
           by rewrite lookup_delete_ne, lookup_insert_eq by lia.
        -- by rewrite lookup_insert_eq.
      * by destruct Hopen as (Hfiles & _).
Qed.

End Sink.

Section EmitIO.

Implicit Types (w : World) (log : ZinxLoggerCore).

(** One emit from a state where the bound file is open. *)
Lemma OutPut_io level s caller log w :
  sink_ok log w ->
  0 <= level <= 5 ->
  exists hdr err log' w',
    formatHeader (set_buf [] log) (w_clock w (w_reads w))
                 (located log caller).1 (located log caller).2 level = Some hdr
    /\ OutPut level s caller log w = Some (err, log', w')
    /\ buf log' = line_of (buf hdr) s
    /\ sink_ok log' w'
    /\ out log' = WFile (file log')
    /\ w_stderr w' = w_stderr w
    /\ match file log' with
       | None => err = Some ErrInvalid /\ w_files w' = w_files w
       | Some fd =>
           exists p,
             w_open w' !! fd = Some p
             /\ if w_full w
                then err = Some ErrNoSpace
                     /\ (w_files w' = w_files w
                         \/ w_files w' = <[p := default [] (w_files w !! p)]> (w_files w))
                else err = None
                     /\ w_files w'
                        = <[p := default [] (w_files w !! p) ++ buf log']> (w_files w)
       end.
Proof.
  intros Hok Hlevel.
  destruct (formatHeader_total (set_buf [] log) (w_clock w (w_reads w))
              (located log caller).1 (located log caller).2 level Hlevel)
    as [hdr Hhdr].
  destruct (OutPut_steps level s caller log w hdr Hhdr) as (h & Hh & Hout).
  simpl in Hout.
  set (log1 := set_buf (line_of h s) log) in *.
  destruct (updateOutputFile_sink log1 (tick w)) as
    ([Hfresh Hbound] & Hsink & Hbuf & Herr & Hfull & Hfile); [exact Hok|].
  set (r := updateOutputFile log1 (tick w)) in *.
  exists hdr, (Write (out r.1) (buf r.1) r.2).1, r.1, (Write (out r.1) (buf r.1) r.2).2.
  split; [done|]. split; [done|]. split; [by rewrite Hbuf, Hh|].
  rewrite Hsink in *. simpl in Herr, Hfull.
  destruct (file r.1) as [fd|] eqn:Hfd.
  - destruct Hfile as (p & Hp & Hfiles).
    destruct (Write_file_io fd (buf r.1) r.2 p Hp) as (He & Hf & Ho & Hn & Hs).
    split; [split|].
    + intros fd' q. rewrite Ho, Hn. apply Hfresh.
    + intros fd' Hfd'. rewrite Ho. rewrite Hfd in Hfd'. injection Hfd' as <-.
      split; [eauto | done].
    + split; [done|]. split; [congruence|].
      exists p. split; [by rewrite Ho|].
      rewrite He, Hf, Hfull. simpl in Hfiles.
      destruct (w_full w); [done|]. split; [done|].
      destruct Hfiles as [-> | ->]; [done|].
      by rewrite lookup_insert_eq, insert_insert_eq.
  - destruct (Write_nil_io (buf r.1) r.2) as (He & Hf & Ho & Hn & Hs).
    split; [split|].
    + intros fd' q. rewrite Ho, Hn. apply Hfresh.
    + intros fd' Hfd'. congruence.
    + split; [done|]. split; [congruence|]. split; [done|]. by rewrite Hf.
Qed.

(** The files after the rotator's check and after a write: as before, or
    with one file created empty, or with one file appended to. *)
Lemma updateOutputFile_files log w :
  w_files (updateOutputFile log w).2 = w_files w
  \/ exists p, w_files (updateOutputFile log w).2
               = <[p := default [] (w_files w !! p)]> (w_files w).
Proof.
  unfold updateOutputFile. simpl.
  destruct (is_current log _); [by left|].
  destruct (rotate_io (tYearDay (w_clock w (w_reads w))) log (tick w))
    as (_ & _ & _ & _ & _ & _ & Hopen).
  destruct (file (rotate _ log (tick w)).1).
  - right. destruct Hopen as (_ & _ & -> & _). eauto.
  - left. by destruct Hopen as (-> & _).
Qed.

Lemma Write_files o data w :
  w_files (Write o data w).2 = w_files w
  \/ exists p, w_files (Write o data w).2
               = <[p := default [] (w_files w !! p) ++ data]> (w_files w).
Proof.
  unfold Write. destruct o as [|[fd|]|id]; simpl; try by left.
  destruct (w_open w !! fd) as [p|]; [|by left].
  destruct (w_full w); [by left | right; eauto].
Qed.

End EmitIO.

(** X11. From a state where the file the logger holds is open, an emit
    leaves it so: the file bound afterwards is open and is the sink. The
    emit writes nothing to standard error, and its error tells the state of
    the sink: [ErrInvalid] exactly when no file could be bound, "no space"
    exactly when a file is bound and the device is full, and never
    "closed". *)
Theorem OutPut_keeps_sink_ok (level : Z) (s : bytes) (caller : option (bytes * Z))
    (log : ZinxLoggerCore) (w : World) :
  sink_ok log w ->
  0 <= level <= 5 ->
  exists err log' w',
    OutPut level s caller log w = Some (err, log', w')
    /\ sink_ok log' w'
    /\ out log' = WFile (file log')
    /\ w_stderr w' = w_stderr w
    /\ err <> Some ErrClosed
    /\ (err = Some ErrInvalid <-> file log' = None)
    /\ (err = Some ErrNoSpace <-> file log' <> None /\ w_full w = true)
    /\ (err = None <-> file log' <> None /\ w_full w = false).
Proof.
  intros Hok Hlevel.
  destruct (OutPut_io level s caller log w Hok Hlevel)
    as (hdr & err & log' & w' & _ & Hout & _ & Hok' & Hsink & Herr & Hfile).
  exists err, log', w'. split; [done|]. split; [done|]. split; [done|].
  split; [done|].
  destruct (file log') as [fd|].
  - destruct Hfile as (p & _ & Hfull).
    destruct (w_full w); destruct Hfull as [-> _];
      repeat split; try congruence; try (intros [? ?]; congruence).
  - destruct Hfile as [-> _].
    repeat split; try congruence; try (intros [? ?]; congruence).
Qed.

Lemma OutPut_keeps_sink_ok_witness :
  exists err log' w',
    OutPut LogInfo ("up" : bytes) here srv_log world0 = Some (err, log', w')
    /\ sink_ok log' w'
    /\ out log' = WFile (file log')
    /\ w_stderr w' = w_stderr world0
    /\ err <> Some ErrClosed
    /\ (err = Some ErrInvalid <-> file log' = None)
    /\ (err = Some ErrNoSpace <-> file log' <> None /\ w_full world0 = true)
    /\ (err = None <-> file log' <> None /\ w_full world0 = false).
Proof.
  apply (OutPut_keeps_sink_ok LogInfo ("up" : bytes) here srv_log world0).
  - split; [intros fd p H | intros fd H]; discriminate H.
  - unfold LogInfo. lia.
Defined.

(** X12. From such a state, an emit that returns no error has appended
    exactly its line to the file the logger is then bound to, and changed no
    other file. *)
Theorem OutPut_appends_line (level : Z) (s : bytes) (caller : option (bytes * Z))
    (log : ZinxLoggerCore) (w : World) :
  sink_ok log w ->
  0 <= level <= 5 ->
  exists hdr err log' w',
    formatHeader (set_buf [] log) (w_clock w (w_reads w))
                 (located log caller).1 (located log caller).2 level = Some hdr
    /\ OutPut level s caller log w = Some (err, log', w')
    /\ (err = None ->
        exists fd p,
          file log' = Some fd
          /\ w_open w' !! fd = Some p
          /\ w_files w'
             = <[p := default [] (w_files w !! p) ++ line_of (buf hdr) s]> (w_files w)).
Proof.
  intros Hok Hlevel.
  destruct (OutPut_io level s caller log w Hok Hlevel)
    as (hdr & err & log' & w' & Hhdr & Hout & Hbuf & _ & _ & _ & Hfile).
  exists hdr, err, log', w'. split; [done|]. split; [done|].
  intros ->. destruct (file log') as [fd|].
  - destruct Hfile as (p & Hp & Hfull). exists fd, p.
    destruct (w_full w); destruct Hfull as [He Hf]; [done|].
    by rewrite <- Hbuf.
  - by destruct Hfile as [? _].
Qed.

Lemma OutPut_appends_line_witness :
  exists hdr err log' w',
    formatHeader (set_buf [] srv_log) (w_clock world0 (w_reads world0))
                 (located srv_log here).1 (located srv_log here).2 LogInfo
    = Some hdr
    /\ OutPut LogInfo ("up" : bytes) here srv_log world0 = Some (err, log', w')
    /\ (err = None ->
        exists fd p,
          file log' = Some fd
          /\ w_open w' !! fd = Some p
          /\ w_files w'
             = <[p := default [] (w_files world0 !! p)
                        ++ line_of (buf hdr) ("up" : bytes)]> (w_files world0)).
Proof.
  apply (OutPut_appends_line LogInfo ("up" : bytes) here srv_log world0).
  - split; [intros fd p H | intros fd H]; discriminate H.
  - unfold LogInfo. lia.
Defined.

(** X13. No emit loses what a file holds: whatever the state of the
    logger, every file that exists before [OutPut] exists after it and
    begins with its former content. *)
Theorem OutPut_never_truncates (level : Z) (s : bytes) (caller : option (bytes * Z))
    (log : ZinxLoggerCore) (w : World) :
  0 <= level <= 5 ->
  exists err log' w',
    OutPut level s caller log w = Some (err, log', w')
    /\ forall p c, w_files w !! p = Some c ->
                   exists more, w_files w' !! p = Some (c ++ more).
Proof.
  intros Hlevel.
  destruct (formatHeader_total (set_buf [] log) (w_clock w (w_reads w))
              (located log caller).1 (located log caller).2 level Hlevel)
    as [hdr Hhdr].
  destruct (OutPut_steps level s caller log w hdr Hhdr) as (h & _ & Hout).
  simpl in Hout. set (log1 := set_buf (line_of h s) log) in *.
  pose proof (updateOutputFile_files log1 (tick w)) as Hup.
  set (r := updateOutputFile log1 (tick w)) in *.
  pose proof (Write_files (out r.1) (buf r.1) r.2) as Hwr.
  eexists _, _, _. split; [exact Hout|]. simpl.
  intros p c Hp.
  assert (w_files r.2 !! p = Some c) as Hp2.
  { destruct Hup as [-> | (q & ->)]; [done|]. simpl.
    destruct (decide (q = p)) as [->|Hne].
    - by rewrite lookup_insert_eq, Hp.
    - by rewrite lookup_insert_ne. }
  destruct Hwr as [-> | (q & ->)]; [exists []; by rewrite app_nil_r|].
  destruct (decide (q = p)) as [->|Hne].
  - rewrite lookup_insert_eq, Hp2. simpl. eauto.
  - rewrite lookup_insert_ne by done. exists []. by rewrite app_nil_r.
Qed.

Lemma OutPut_never_truncates_witness :
  exists err log' w',
    OutPut LogError ("boom" : bytes) here srv_log (fill world0) = Some (err, log', w')
    /\ forall p c, w_files (fill world0) !! p = Some c ->
                   exists more, w_files w' !! p = Some (c ++ more).
Proof.
  apply (OutPut_never_truncates LogError ("boom" : bytes) here srv_log (fill world0)).
  unfold LogError. lia.
Defined.

Section Unbound.

Lemma Write_file_stderr (f : option nat) (data : bytes) (w : World) :
  w_stderr (Write (WFile f) data w).2 = w_stderr w.
Proof.
  unfold Write. destruct f as [fd|]; [|done].
  destruct (w_open w !! fd); [destruct (w_full w)|]; done.
Qed.

End Unbound.

(** X14. A logger with no bound file, in particular one fresh from
    [NewZinxLog] whatever writer it was given, never writes to that writer
    nor to standard error: every emit first tries to open the daily file
    and then writes to the file it got, or to the nil file. Its system
    calls are the look-ups, the open and that one write. *)
Theorem unbound_logger_opens_then_writes (level : Z) (s : bytes)
    (caller : option (bytes * Z)) (log : ZinxLoggerCore) (w : World) :
  file log = None ->
  0 <= level <= 5 ->
  exists err log' w' mk create,
    OutPut level s caller log w = Some (err, log', w')
    /\ out log' = WFile (file log')
    /\ w_stderr w' = w_stderr w
    /\ (mk = [] \/ mk = [SysMkdirAll (fileDir log)])
    /\ w_trace w'
       = w_trace w ++ SysStat (fileDir log) :: mk
           ++ [SysStat (daily_file log (tick w));
               SysOpen (daily_file log (tick w)) create (file log');
               SysWrite (WFile (file log')) (buf log') err].
Proof.
  intros Hnone Hlevel.
  destruct (formatHeader_total (set_buf [] log) (w_clock w (w_reads w))
              (located log caller).1 (located log caller).2 level Hlevel)
    as [hdr Hhdr].
  destruct (OutPut_steps level s caller log w hdr Hhdr) as (h & _ & Hout).
  simpl in Hout. set (log1 := set_buf (line_of h s) log) in *.
  assert (updateOutputFile log1 (tick w)
          = rotate (tYearDay (w_clock w (S (w_reads w)))) log1 (tick (tick w)))
    as Hslow.
  { unfold updateOutputFile. simpl.
    by rewrite (is_current_unbound log1) by exact Hnone. }
  rewrite Hslow in Hout.
  destruct (rotate_io (tYearDay (w_clock w (S (w_reads w)))) log1 (tick (tick w)))
    as (_ & Hsink & _ & Herr & _ & (mk & create & Hmk & Htr) & _).
  set (r := rotate _ log1 (tick (tick w))) in *.
  pose proof (Write_trace (out r.1) (buf r.1) r.2) as Hwt.
  exists (Write (out r.1) (buf r.1) r.2).1, r.1, (Write (out r.1) (buf r.1) r.2).2,
         mk, create.
  split; [done|]. split; [done|]. simpl.
  split; [by rewrite Hsink, Write_file_stderr|]. split; [done|].
  rewrite Hwt, Htr. simpl. rewrite Hnone. simpl.
  rewrite <- !app_assoc. simpl. rewrite <- !app_assoc. simpl.
  by rewrite Hsink.
Qed.

Lemma unbound_logger_opens_then_writes_witness :
  exists err log' w' mk create,
    OutPut LogInfo ("up" : bytes) here
           (NewZinxLog (WOther 7) ("SRV" : bytes) BitDefault) world0
    = Some (err, log', w')
    /\ out log' = WFile (file log')
    /\ w_stderr w' = w_stderr world0
    /\ (mk = [] \/ mk = [SysMkdirAll (fileDir (NewZinxLog (WOther 7) ("SRV" : bytes) BitDefault))])
    /\ w_trace w'
       = w_trace world0
           ++ SysStat (fileDir (NewZinxLog (WOther 7) ("SRV" : bytes) BitDefault)) :: mk
           ++ [SysStat (daily_file (NewZinxLog (WOther 7) ("SRV" : bytes) BitDefault)
                                   (tick world0));
               SysOpen (daily_file (NewZinxLog (WOther 7) ("SRV" : bytes) BitDefault)
                                   (tick world0)) create (file log');
               SysWrite (WFile (file log')) (buf log') err].
Proof.
  apply (unbound_logger_opens_then_writes LogInfo ("up" : bytes) here
           (NewZinxLog (WOther 7) ("SRV" : bytes) BitDefault) world0).
  - reflexivity.
  - unfold LogInfo. lia.
Defined.

(** X15. When the day of the year the check reads differs from the day
    field of the logger (the check compares days of the year only, so a
    date one year later on the same day of the year is no change), the
    check closes the file bound before; closing it is its last system
    call; no descriptor is left open on it. If the new file opens, it gets
    a descriptor other than the old one, open on [dir/name.YYYYMMDD]. *)
Theorem day_change_closes_previous_file (log : ZinxLoggerCore) (w : World)
    (old : nat) :
  sink_ok log w ->
  file log = Some old ->
  lastWriteDate log <> tYearDay (w_clock w (w_reads w)) ->
  let log' := (updateOutputFile log w).1 in
  let w' := (updateOutputFile log w).2 in
  w_open w' !! old = None
  /\ last (w_trace w') = Some (SysClose old)
  /\ lastWriteDate log' = tYearDay (w_clock w (w_reads w))
  /\ out log' = WFile (file log')
  /\ (forall new, file log' = Some new ->
                  new <> old /\ w_open w' !! new = Some (daily_file log w)).
Proof.
  intros [Hfresh Hbound] Hold Hday log' w'. subst log' w'.
  unfold updateOutputFile. simpl.
  assert (is_current log (tYearDay (w_clock w (w_reads w))) = false) as ->.
  { unfold is_current. by rewrite bool_decide_eq_false_2. }
  destruct (rotate_io (tYearDay (w_clock w (w_reads w))) log (tick w))
    as (Hlast & Hsink & _ & _ & _ & (mk & create & _ & Htr) & Hopen).
  set (r := rotate _ log (tick w)) in *.
  rewrite Hold in Hopen, Htr. simpl in Htr, Hopen.
  destruct (Hbound old Hold) as [[q Hq] _]. apply Hfresh in Hq.
  split.
  { destruct (file r.1); [destruct Hopen as (_ & _ & _ & ->)
                         | destruct Hopen as (_ & _ & ->)];
      apply lookup_delete_eq. }
  split.
  { rewrite Htr.
    replace (w_trace w ++ SysStat (fileDir log) :: mk
               ++ [SysStat _; SysOpen _ create (file r.1); SysClose old])
      with ((w_trace w ++ SysStat (fileDir log) :: mk
               ++ [SysStat (daily_file log w);
                   SysOpen (daily_file log w) create (file r.1)])
              ++ [SysClose old]).
    - apply last_snoc.
    - rewrite <- !app_assoc. simpl. by rewrite <- !app_assoc. }
  split; [done|]. split; [done|].
  intros new Hnew. rewrite Hnew in Hopen.
  destruct Hopen as (-> & _ & _ & ->). simpl.
  split; [lia|]. by rewrite lookup_delete_ne, lookup_insert_eq by lia.
Qed.

Lemma day_change_closes_previous_file_witness :
  w_open (updateOutputFile bound_log bound_world).2 !! 3%nat = None
  /\ last (w_trace (updateOutputFile bound_log bound_world).2) = Some (SysClose 3)
  /\ lastWriteDate (updateOutputFile bound_log bound_world).1
     = tYearDay (w_clock bound_world (w_reads bound_world))
  /\ out (updateOutputFile bound_log bound_world).1
     = WFile (file (updateOutputFile bound_log bound_world).1)
  /\ (forall new,
        file (updateOutputFile bound_log bound_world).1 = Some new ->
        new <> 3%nat
        /\ w_open (updateOutputFile bound_log bound_world).2 !! new
           = Some (daily_file bound_log bound_world)).
Proof.
  apply (day_change_closes_previous_file bound_log bound_world 3%nat).
  - split.
    + intros fd p H. unfold bound_world in H. simpl in H.
      apply lookup_singleton_Some in H as [<- _]. simpl. lia.
    + intros fd H. injection H as <-. split; [|reflexivity].
      unfold bound_world. simpl. eexists. apply lookup_singleton_eq.
  - reflexivity.
  - simpl. lia.
Defined.

(** ** Closing the file, flags, and the log directory *)

Section Flags.

Lemma has_lor_l (a b m : Z) : has (Z.lor a b) m = has a m || has b m.
Proof.
  unfold has. rewrite Z.land_lor_distr_l.
  destruct (Z.eqb_spec (Z.land a m) 0) as [H1|H1];
    destruct (Z.eqb_spec (Z.land b m) 0) as [H2|H2]; simpl;
    destruct (Z.eqb_spec (Z.lor (Z.land a m) (Z.land b m)) 0) as [H|H];
    try done; try (apply Z.lor_eq_0_iff in H; tauto).
  exfalso. apply H. apply Z.lor_eq_0_iff. done.
Qed.

End Flags.

(** X16. [closeFile] (and the finalizer [CleanZinxLog], which is the same
    call) releases the bound file: afterwards no file is bound, the
    descriptor is closed, the sink is standard error, and the files are
    untouched. On a logger without bound file it does nothing, so closing
    twice is closing once. After it the rotator's check is never the fast
    path: the next emit opens the daily file again. *)
Theorem closeFile_releases (log : ZinxLoggerCore) (w : World) :
  let log' := (closeFile log w).1 in
  let w' := (closeFile log w).2 in
  CleanZinxLog log w = closeFile log w
  /\ file log' = None
  /\ w_files w' = w_files w
  /\ w_stderr w' = w_stderr w
  /\ config log' = config log
  /\ (forall fd, file log = Some fd ->
                 out log' = WStderr
                 /\ w_open w' !! fd = None
                 /\ w_trace w' = w_trace w ++ [SysClose fd])
  /\ (file log = None -> closeFile log w = (log, w))
  /\ closeFile log' w' = (log', w')
  /\ (forall d, is_current log' d = false).
Proof.
  intros log' w'. subst log' w'.
  destruct (closeFile_io log w) as (Hnone & Htr & Hop & Hfiles & _ & Herr & _).
  split; [done|]. split; [done|]. split; [done|]. split; [done|].
  split; [apply closeFile_config|]. split.
  { intros fd Hfd. rewrite Htr, Hop, Hfd. simpl.
    split; [|split; [apply lookup_delete_eq | done]].
    unfold closeFile. rewrite Hfd. by destruct (os_Close fd w). }
  split; [intros Hfile; unfold closeFile; by rewrite Hfile|].
  split; [|intros d; by apply is_current_unbound].
  unfold closeFile at 1. by rewrite Hnone.
Qed.

(** X17. [AddFlag] only adds header fields: a field is enabled afterwards
    exactly when it was enabled before or is in the added mask, adding the
    same mask twice is adding it once, and nothing but the flags changes.
    [ResetFlags] replaces the mask: [Flags] then returns it. *)
Theorem AddFlag_only_adds (f m : Z) (log : ZinxLoggerCore) :
  has (Flags (AddFlag f log)) m = has (Flags log) m || has f m
  /\ AddFlag f (AddFlag f log) = AddFlag f log
  /\ Flags (ResetFlags f log) = f
  /\ Flags (AddFlag f (ResetFlags 0 log)) = f
  /\ (prefix (AddFlag f log), isolationLevel (AddFlag f log), out (AddFlag f log),
      file (AddFlag f log), lastWriteDate (AddFlag f log))
     = (prefix log, isolationLevel log, out log, file log, lastWriteDate log).
Proof.
  split; [apply has_lor_l|]. split; [|done].
  unfold AddFlag, set_flag. simpl.
  by rewrite <- Z.lor_assoc, Z.lor_diag.
Qed.

(** X18. [mkdirLog] reports permission failures only: its result is nil
    or a permission error, so the failure to create the empty path is
    reported as success although no directory exists afterwards. It looks
    the directory up once, tries to create it only when the look-up
    failed, and never touches files, descriptors or standard error. *)
Theorem mkdirLog_reports_only_permission (dir : bytes) (w : World) :
  ((mkdirLog dir w).1 = None \/ (mkdirLog dir w).1 = Some ErrPermission)
  /\ store (mkdirLog dir w).2 = store w
  /\ (dir ∈ w_dirs w ->
      mkdirLog dir w = (None, log_call (SysStat dir) w))
  /\ (dir = [] -> [] ∉ w_dirs w -> w_files w !! [] = None ->
      (mkdirLog dir w).1 = None
      /\ ([] ∉ w_dirs (mkdirLog dir w).2)
      /\ w_trace (mkdirLog dir w).2 = w_trace w ++ [SysStat []; SysMkdirAll []])
  /\ ((mkdirLog dir w).1 = None -> dir <> [] ->
      dir ∈ w_dirs (mkdirLog dir w).2 \/ is_Some (w_files w !! dir)).
Proof.
  split; [|split; [apply mkdirLog_io|]].
  - unfold mkdirLog, os_Stat, os_MkdirAll.
    repeat case_decide; simpl; auto.
  - split; [|split].
    + intros Hin. unfold mkdirLog, os_Stat. by rewrite decide_True.
    + intros -> Hdir Hfile. unfold mkdirLog, os_Stat, os_MkdirAll.
      assert (~ is_Some (w_files w !! [])) as Hnot
        by (rewrite Hfile; by intros [? ?]).
      repeat case_decide; simpl in *; try done.
      split; [done|]. split; [done|]. by rewrite <- app_assoc.
    + unfold mkdirLog, os_Stat, os_MkdirAll.
      repeat case_decide; simpl; intros Hres Hne; try done; auto.
      left. set_solver.
Qed.

(** ** Several emits on one day *)

Section SameDay.

Implicit Types (w : World) (log : ZinxLoggerCore).

Lemma os_OpenFile_ambient p c w : ambient (os_OpenFile p c w).2 = ambient w.
Proof.
  unfold os_OpenFile. repeat case_decide; simpl; try done.
  destruct c; simpl; [|done]. by destruct (parent_exists p w).
Qed.

Lemma closeFile_ambient log w : ambient (closeFile log w).2 = ambient w.
Proof.
  unfold closeFile, os_Close. destruct (file log) as [fd|]; [|done].
  simpl. by destruct (w_open w !! fd).
Qed.

Lemma mkdirLog_ambient d w : ambient (mkdirLog d w).2 = ambient w.
Proof.
  destruct (mkdirLog_io d w) as (Hst & Hck & _). unfold ambient.
  unfold store in Hst. injection Hst as _ _ _ _ Hfull. by rewrite Hck, Hfull.
Qed.

Lemma rotate_ambient yd log w : ambient (rotate yd log w).2 = ambient w.
Proof.
  unfold rotate.
  pose proof (mkdirLog_ambient (fileDir (set_lastWriteDate yd log)) w) as H1.
  destruct (mkdirLog _ w) as [e w1].
  destruct (Now w1) as [t w2] eqn:Hnow.
  assert (ambient w2 = ambient w1) as H2 by (injection Hnow as _ <-; done).
  unfold checkFileExist, os_Stat.
  match goal with |- context [os_OpenFile ?p ?c ?w3] =>
    pose proof (os_OpenFile_ambient p c w3) as H4;
    destruct (os_OpenFile p c w3) as [[f e4] w4]
  end.
  rewrite guarded_closeFile.
  pose proof (closeFile_ambient (set_lastWriteDate yd log) w4) as H5.
  destruct (closeFile _ w4) as [log5 w5]. unfold ambient in *. simpl in *.
  congruence.
Qed.

Lemma updateOutputFile_ambient log w :
  ambient (updateOutputFile log w).2 = ambient w.
Proof.
  unfold updateOutputFile. simpl.
  destruct (is_current log _); [done|]. apply (rotate_ambient _ log (tick w)).
Qed.

Lemma Write_ambient o data w : ambient (Write o data w).2 = ambient w.
Proof.
  unfold Write. destruct o as [|[fd|]|id]; simpl; try done.
  destruct (w_open w !! fd); [destruct (w_full w) eqn:Hf|]; simpl; try done;
    unfold ambient; simpl; by rewrite Hf.
Qed.

(** After the rotator's check the day field is the day the check read,
    on either path. *)
Lemma updateOutputFile_day log w :
  lastWriteDate (updateOutputFile log w).1 = tYearDay (w_clock w (w_reads w)).
Proof.
  unfold updateOutputFile. simpl.
  destruct (is_current log _) eqn:Hcur; [|apply rotate_result].
  simpl. unfold is_current in Hcur.
  apply andb_true_iff in Hcur as [Hcur _].
  by apply bool_decide_eq_true in Hcur.
Qed.

(** The emit of a logger whose file is bound, open and of the day: one
    [Write] and no other system call. *)
Lemma OutPut_fast level s caller log w fd p hdr :
  file log = Some fd ->
  out log = WFile (Some fd) ->
  w_open w !! fd = Some p ->
  lastWriteDate log = tYearDay (w_clock w (S (w_reads w))) ->
  formatHeader (set_buf [] log) (w_clock w (w_reads w))
               (located log caller).1 (located log caller).2 level = Some hdr ->
  exists log' w',
    OutPut level s caller log w
    = Some ((if w_full w then Some ErrNoSpace else None), log', w')
    /\ log' = set_buf (line_of (buf hdr) s) log
    /\ w_trace w'
       = w_trace w ++ [SysWrite (WFile (Some fd)) (line_of (buf hdr) s)
                                (if w_full w then Some ErrNoSpace else None)]
    /\ w_open w' = w_open w
    /\ w_files w'
       = (if w_full w then w_files w
          else <[p := default [] (w_files w !! p) ++ line_of (buf hdr) s]> (w_files w)).
Proof.
  intros Hfile Hout Hfd Hday Hhdr.
  destruct (OutPut_steps level s caller log w hdr Hhdr) as (h & <- & Hrun).
  simpl in Hrun.
  assert (updateOutputFile (set_buf (line_of (buf hdr) s) log) (tick w)
          = (set_buf (line_of (buf hdr) s) log, tick (tick w))) as Hup.
  { unfold updateOutputFile. simpl.
    assert (is_current (set_buf (line_of (buf hdr) s) log)
                       (tYearDay (w_clock w (S (w_reads w)))) = true) as ->; [|done].
    unfold is_current. simpl. apply andb_true_iff.
    split; apply bool_decide_eq_true; [done | by rewrite Hfile]. }
  rewrite Hup in Hrun. simpl in Hrun. rewrite Hout in Hrun.
  destruct (Write_file_io fd (line_of (buf hdr) s) (tick (tick w)) p Hfd)
    as (He & Hf & Ho & _ & _).
  pose proof (Write_trace (WFile (Some fd)) (line_of (buf hdr) s) (tick (tick w)))
    as Htr.
  rewrite He in Hrun, Htr. simpl in *.
  eexists _, _. split; [exact Hrun|]. split; [done|]. split; [exact Htr|].
  split; [exact Ho | exact Hf].
Qed.

End SameDay.

(** X19. Two emits on the same day share one open. From a state where
    the bound file is open, on a clock that stays on one day and a device
    with space left: if the first emit returns no error, the second makes
    one system call only, the write; it returns no error, keeps the same
    file bound, and the file then holds its former content followed by the
    two lines in the order of the calls. *)
Theorem same_day_emits_share_one_open (l1 l2 : Z) (s1 s2 : bytes)
    (c1 c2 : option (bytes * Z)) (log : ZinxLoggerCore) (w : World) (day : Z) :
  sink_ok log w ->
  (forall n, tYearDay (w_clock w n) = day) ->
  w_full w = false ->
  0 <= l1 <= 5 -> 0 <= l2 <= 5 ->
  exists h1 e1 log1 w1 h2 e2 log2 w2,
    formatHeader (set_buf [] log) (w_clock w (w_reads w))
                 (located log c1).1 (located log c1).2 l1 = Some h1
    /\ OutPut l1 s1 c1 log w = Some (e1, log1, w1)
    /\ formatHeader (set_buf [] log1) (w_clock w1 (w_reads w1))
                    (located log1 c2).1 (located log1 c2).2 l2 = Some h2
    /\ OutPut l2 s2 c2 log1 w1 = Some (e2, log2, w2)
    /\ (e1 = None ->
        e2 = None
        /\ file log2 = file log1
        /\ exists fd p,
             file log1 = Some fd
             /\ w_open w2 !! fd = Some p
             /\ w_trace w2
                = w_trace w1 ++ [SysWrite (WFile (Some fd)) (line_of (buf h2) s2) None]
             /\ w_files w2
                = <[p := default [] (w_files w !! p)
                           ++ line_of (buf h1) s1 ++ line_of (buf h2) s2]> (w_files w)).
Proof.
  intros Hok Hday Hspace Hl1 Hl2.
  destruct (OutPut_io l1 s1 c1 log w Hok Hl1)
    as (h1 & e1 & log1 & w1 & Hh1 & Hout1 & Hbuf1 & Hok1 & Hsink1 & _ & Hfile1).
  destruct (formatHeader_total (set_buf [] log1) (w_clock w1 (w_reads w1))
              (located log1 c2).1 (located log1 c2).2 l2 Hl2) as [h2 Hh2].
  (* clock, device and day after the first emit *)
  destruct (OutPut_steps l1 s1 c1 log w h1 Hh1) as (h & _ & Hrun1).
  simpl in Hrun1. rewrite Hout1 in Hrun1. injection Hrun1 as _ Hlog1 Hw1.
  assert (ambient w1 = ambient w) as Hamb.
  { rewrite Hw1, Write_ambient, updateOutputFile_ambient. done. }
  unfold ambient in Hamb. injection Hamb as Hclock Hfull.
  assert (lastWriteDate log1 = day) as Hlast.
  { rewrite Hlog1, updateOutputFile_day. simpl. apply Hday. }
  destruct (file log1) as [fd|] eqn:Hfd.
  - destruct Hfile1 as (p & Hp & Hres). rewrite Hspace in Hres.
    destruct Hres as [-> Hfiles1].
    destruct (OutPut_fast l2 s2 c2 log1 w1 fd p h2)
      as (log2 & w2 & Hout2 & Hlog2 & Htr2 & Hopen2 & Hfiles2); try done.
    { rewrite Hlast, Hclock. symmetry. apply Hday. }
    rewrite Hfull, Hspace in Hout2, Htr2, Hfiles2.
    exists h1, None, log1, w1, h2, None, log2, w2.
    split; [done|]. split; [done|]. split; [done|]. split; [done|].
    intros _. split; [done|]. split; [by rewrite Hlog2|].
    exists fd, p. split; [done|]. split; [by rewrite Hopen2|].
    split; [done|].
    rewrite Hfiles2, Hfiles1, lookup_insert_eq, insert_insert_eq. simpl.
    by rewrite Hbuf1, <- app_assoc.
  - destruct Hfile1 as [-> _].
    destruct (OutPut_total l2 s2 c2 log1 w1 Hl2)
      as (h2' & e2 & log2 & w2 & calls & Hh2' & Hout2 & _).
    exists h1, (Some ErrInvalid), log1, w1, h2, e2, log2, w2.
    split; [done|]. split; [done|]. split; [done|]. split; [done|].
    intros [=].
Qed.

Lemma same_day_emits_share_one_open_witness :
  exists h1 e1 log1 w1 h2 e2 log2 w2,
    formatHeader (set_buf [] srv_log) (w_clock world0 (w_reads world0))
                 (located srv_log here).1 (located srv_log here).2 LogInfo = Some h1
    /\ OutPut LogInfo ("up" : bytes) here srv_log world0 = Some (e1, log1, w1)
    /\ formatHeader (set_buf [] log1) (w_clock w1 (w_reads w1))
                    (located log1 None).1 (located log1 None).2 LogWarn = Some h2
    /\ OutPut LogWarn ("slow" : bytes) None log1 w1 = Some (e2, log2, w2)
    /\ (e1 = None ->
        e2 = None
        /\ file log2 = file log1
        /\ exists fd p,
             file log1 = Some fd
             /\ w_open w2 !! fd = Some p
             /\ w_trace w2
                = w_trace w1
                    ++ [SysWrite (WFile (Some fd)) (line_of (buf h2) ("slow" : bytes)) None]
             /\ w_files w2
                = <[p := default [] (w_files world0 !! p)
                           ++ line_of (buf h1) ("up" : bytes)
                           ++ line_of (buf h2) ("slow" : bytes)]> (w_files world0)).
Proof.
  apply (same_day_emits_share_one_open LogInfo LogWarn ("up" : bytes) ("slow" : bytes)
           here None srv_log world0 101).
  - split; [intros fd p H | intros fd H]; discriminate H.
  - intros n. reflexivity.
  - reflexivity.
  - unfold LogInfo. lia.
  - unfold LogWarn. lia.
Defined.

(** X20. [Panicf] and [Panic], when the gate lets them through (isolation
    level at most PANIC), emit their line and then panic with the message
    as value, whatever the write returned; for [Panic] that value ends with
    the line terminator [Sprintln] added. With a higher isolation level
    they return without emitting and without panicking. *)
Theorem Panic_panics_unless_suppressed (c : Call) (caller : option (bytes * Z))
    (log : ZinxLoggerCore) (w : World) :
  severity c = LogPanic ->
  (isolationLevel log <= LogPanic ->
   exists err log' w' calls,
     run c caller log w = Some (Panicked (message c), log', w')
     /\ w_trace w' = w_trace w ++ calls ++ [SysWrite (out log') (buf log') err])
  /\ (isolationLevel log > LogPanic -> run c caller log w = Some (Returned, log, w))
  /\ (forall v, c = CPanic v -> last (message c) = Some newline).
Proof.
  intros Hsev.
  assert (gated c = true /\ ending c = Panicked (message c)) as [Hgated Hend]
    by (destruct c; try discriminate Hsev; done).
  split; [|split].
  - intros Hle.
    destruct (run_emits c caller log w)
      as (hdr & err & log' & w' & calls & _ & Hrun & _ & Htr).
    { rewrite Hgated, Hsev. simpl.
      destruct (verifyLogIsolation log LogPanic) eqn:Hv; [|done].
      apply verifyLogIsolation_gt in Hv. lia. }
    exists err, log', w', calls. by rewrite Hrun, Hend.
  - intros Hgt. rewrite run_unfold, Hgated, Hsev. simpl.
    apply verifyLogIsolation_gt in Hgt. by rewrite Hgt.
  - intros v ->. apply last_Sprintln.
Qed.

Lemma Panic_panics_unless_suppressed_witness :
  exists err log' w' calls,
    run (CPanic [("lost" : bytes)]) here srv_log (fill world0)
    = Some (Panicked (message (CPanic [("lost" : bytes)])), log', w')
    /\ w_trace w'
       = w_trace (fill world0) ++ calls ++ [SysWrite (out log') (buf log') err].
Proof.
  apply (Panic_panics_unless_suppressed (CPanic [("lost" : bytes)]) here srv_log
           (fill world0)).
  - reflexivity.
  - vm_compute. discriminate.
Defined.
